(** * Company catalog: the catalog service of [app/crud.py]

    A shallow embedding of the query and create operations of the catalog
    (buildings, activities, organizations, phones and the
    [organization_activity] link table) together with the properties of the
    specification that concern them.

    The relational store is an external collaborator.  It is modelled by
    lists of rows in insertion order, integer primary keys handed out in
    increasing order, and no enforcement of foreign keys (section 4.2 of the
    specification: an organization can be created against a building that
    does not exist).  A SQLAlchemy session is a pair of stores: what is
    persisted, and what the open transaction sees.

    Stores differ where the model takes one side: one that enforces the
    foreign keys of [app/models.py] refuses a row whose reference does not
    resolve, a driver may refuse a text with a NUL character, and the order
    of NaN and the folding of case are the store's own.  The statements
    below that say that a create operation returns, or that compare with a
    bound, therefore carry the hypotheses under which the stores agree (the
    building is stored, the texts are storable, the bounds are numbers), or
    are stated for the case that the call returns. *)

From Stdlib Require Import ZArith NArith List Bool String Lia Floats.
Import ListNotations.

Set Warnings "-inexact-float".

Local Open Scope Z_scope.

(** ** Text

    A Python [str] is a sequence of Unicode code points. *)

Definition codepoint := N.
Definition str := list codepoint.

(** Literals are written as UTF-8 encoded Rocq strings and decoded. *)

Fixpoint utf8_decode (pending : nat) (acc : N) (bytes : list N) : str :=
  match bytes with
  | [] => []
  | b :: rest =>
      match pending with
      | O =>
          if (b <? 128)%N then b :: utf8_decode 0 0%N rest
          else if (b <? 224)%N then utf8_decode 1 (N.land b 31) rest
          else if (b <? 240)%N then utf8_decode 2 (N.land b 15) rest
          else utf8_decode 3 (N.land b 7) rest
      | S O => (acc * 64 + N.land b 63)%N :: utf8_decode 0 0%N rest
      | S k => utf8_decode k (acc * 64 + N.land b 63)%N rest
      end
  end.

Definition utf8 (s : string) : str :=
  utf8_decode 0 0%N (map Ascii.N_of_ascii (list_ascii_of_string s)).

(** ** Rows ([app/models.py]) and request bodies ([app/schemas.py]) *)

Module Phone.
Record t := mk { id : Z; number : str; organization_id : Z }.
End Phone.

Module Activity.
Record t := mk { id : Z; name : str; parent_id : option Z; level : Z }.
End Activity.

Module Building.
Record t := mk { id : Z; address : str; latitude : float; longitude : float }.
End Building.

Module Organization.
Record t := mk { id : Z; name : str; building_id : Z }.
End Organization.

Module ActivityCreate.
Record t := mk { name : str; parent_id : option Z }.
End ActivityCreate.

Module BuildingCreate.
Record t := mk { address : str; latitude : float; longitude : float }.
End BuildingCreate.

Module OrganizationCreate.
Record t := mk { name : str; building_id : Z;
                 phone_numbers : list str; activity_ids : list Z }.
End OrganizationCreate.

(** A row of [organization_activity]: (organization_id, activity_id). *)
Definition link := (Z * Z)%type.

Record Store := mkStore {
  buildings : list Building.t;
  activities : list Activity.t;
  organizations : list Organization.t;
  phones : list Phone.t;
  organization_activity : list link
}.

Definition empty_store : Store := mkStore [] [] [] [] [].

(** ** Sessions

    [Session A] is a computation over an open session that returns an [A]
    or raises.  Queries read the transaction's view; [commit] persists it. *)

Record Conn := mkConn { persisted : Store; pending : Store }.

Inductive exn :=
| ValueError (msg : string)
| RecursionError.

Inductive outcome (A : Type) :=
| Return (a : A)
| Raise (e : exn).
Arguments Return {A} a.
Arguments Raise {A} e.

Definition Session (A : Type) := Conn -> outcome A * Conn.

Definition ret {A} (a : A) : Session A := fun c => (Return a, c).

Definition raise {A} (e : exn) : Session A := fun c => (Raise e, c).

Definition bind {A B} (m : Session A) (k : A -> Session B) : Session B :=
  fun c =>
    match m c with
    | (Return a, c') => k a c'
    | (Raise e, c') => (Raise e, c')
    end.

Declare Scope session_scope.
Delimit Scope session_scope with session.
Notation "x <- m ;; k" := (bind m (fun x => k))
  (at level 61, m at next level, right associativity) : session_scope.
Notation "m ;; k" := (bind m (fun _ => k))
  (at level 61, right associativity) : session_scope.
Local Open Scope session_scope.

(** [db.query(...)...all()] or [.first()]: a read of the transaction's view. *)
Definition query {A} (q : Store -> A) : Session A :=
  fun c => (Return (q (pending c)), c).

Definition update (f : Store -> Store) : Session unit :=
  fun c => (Return tt, mkConn (persisted c) (f (pending c))).

Definition commit : Session unit :=
  fun c => (Return tt, mkConn (pending c) (pending c)).

(** A request of the API layer: [get_db] opens a session on the store and
    closes it when the handler is done; what was not committed is lost. *)
Definition open (db : Store) : Conn := mkConn db db.

Definition request {A} (op : Session A) (db : Store) : outcome A * Store :=
  let (r, c) := op (open db) in (r, persisted c).

(** Primary keys: the store hands out the successor of the largest key. *)
Definition next_id (ids : list Z) : Z := 1 + fold_right Z.max 0 ids.

(** [.first()] of a filtered query. *)
Definition first {A} (p : A -> bool) (rows : list A) : option A := find p rows.

(** [column.in_(values)] *)
Definition in_ (x : Z) (values : list Z) : bool := existsb (Z.eqb x) values.

(** [db.add(row)] followed by the flush that assigns its key. *)
Definition add_building (address : str) (lat lon : float) : Session Building.t :=
  key <- query (fun s => next_id (map Building.id (buildings s)));;
  let row := Building.mk key address lat lon in
  update (fun s => mkStore (buildings s ++ [row]) (activities s)
                     (organizations s) (phones s) (organization_activity s));;
  ret row.

Definition add_activity (name : str) (parent_id : option Z) (level : Z)
  : Session Activity.t :=
  key <- query (fun s => next_id (map Activity.id (activities s)));;
  let row := Activity.mk key name parent_id level in
  update (fun s => mkStore (buildings s) (activities s ++ [row])
                     (organizations s) (phones s) (organization_activity s));;
  ret row.

Definition add_organization (name : str) (building_id : Z)
  : Session Organization.t :=
  key <- query (fun s => next_id (map Organization.id (organizations s)));;
  let row := Organization.mk key name building_id in
  update (fun s => mkStore (buildings s) (activities s)
                     (organizations s ++ [row]) (phones s)
                     (organization_activity s));;
  ret row.

Definition add_phone (number : str) (organization_id : Z) : Session Phone.t :=
  key <- query (fun s => next_id (map Phone.id (phones s)));;
  let row := Phone.mk key number organization_id in
  update (fun s => mkStore (buildings s) (activities s) (organizations s)
                     (phones s ++ [row]) (organization_activity s));;
  ret row.

(** [db_org.activities = activities]: one link row per activity. *)
Definition set_activities (org : Organization.t) (acts : list Activity.t)
  : Session unit :=
  update (fun s => mkStore (buildings s) (activities s) (organizations s)
                     (phones s)
                     (organization_activity s
                        ++ map (fun a => (Organization.id org, Activity.id a)) acts)).

(** ** Read operations *)

Definition find_activity (s : Store) (activity_id : Z) : option Activity.t :=
  first (fun a => Activity.id a =? activity_id) (activities s).

Definition get_building (building_id : Z) : Session (option Building.t) :=
  query (fun s => first (fun b => Building.id b =? building_id) (buildings s)).

(** [offset(skip).limit(limit)]; what a store does with a negative offset
    or limit is its own, and is left out: they count as 0 here. *)
Definition get_buildings (skip limit : Z) : Session (list Building.t) :=
  query (fun s => firstn (Z.to_nat limit) (skipn (Z.to_nat skip) (buildings s))).

Definition get_organizations_in_building (building_id : Z)
  : Session (list Organization.t) :=
  query (fun s => filter (fun o => Organization.building_id o =? building_id)
                    (organizations s)).

Definition get_organization (org_id : Z) : Session (option Organization.t) :=
  query (fun s => first (fun o => Organization.id o =? org_id) (organizations s)).

(** [Activity.parent_id == act.id]; a NULL parent equals nothing. *)
Definition is_child_of (act c : Activity.t) : bool :=
  match Activity.parent_id c with
  | Some p => p =? Activity.id act
  | None => false
  end.

(** [for child in children: result.extend(f(child))] *)
Fixpoint extend_each {A B} (f : A -> Session (list B)) (children : list A)
  (result : list B) : Session (list B) :=
  match children with
  | [] => ret result
  | child :: rest => r <- f child;; extend_each f rest (result ++ r)
  end.

(** The recursion of [get_all_children] is bounded by the interpreter's
    recursion limit, here [depth]; running past it raises. *)
Fixpoint get_all_children (depth : nat) (act : Activity.t)
  : Session (list Activity.t) :=
  match depth with
  | O => raise RecursionError
  | S d =>
      children <- query (fun s => filter (is_child_of act) (activities s));;
      extend_each (get_all_children d) children [act]
  end.

(** [query(Organization).join(organization_activity)]: one row per pair of an
    organization and a link row of that organization. *)
Definition join_links (s : Store) : list (Organization.t * link) :=
  flat_map (fun o => map (pair o)
                       (filter (fun l => fst l =? Organization.id o)
                          (organization_activity s)))
    (organizations s).

(** A query for one mapped entity yields each identity (primary key) once. *)
Fixpoint unique (seen : list Z) (rows : list Organization.t)
  : list Organization.t :=
  match rows with
  | [] => []
  | o :: rest =>
      if in_ (Organization.id o) seen then unique seen rest
      else o :: unique (Organization.id o :: seen) rest
  end.

Definition organizations_linked_to (activity_ids : list Z) (s : Store)
  : list Organization.t :=
  unique [] (map fst (filter (fun r => in_ (snd (snd r)) activity_ids)
                        (join_links s))).

Definition get_organizations_by_activity (depth : nat) (activity_id : Z)
  : Session (list Organization.t) :=
  activity <- query (fun s => find_activity s activity_id);;
  match activity with
  | None => ret []
  | Some act =>
      all_activities <- get_all_children depth act;;
      let activity_ids := map Activity.id all_activities in
      query (organizations_linked_to activity_ids)
  end.

(** ** Create operations *)

(** [if activity.parent_id:] is false for [None] and for [0]. *)
Definition create_activity (activity : ActivityCreate.t) : Session Activity.t :=
  level <- match ActivityCreate.parent_id activity with
           | None => ret 0
           | Some pid =>
               if pid =? 0 then ret 0
               else
                 parent <- query (fun s => find_activity s pid);;
                 match parent with
                 | None => raise (ValueError "Parent activity not found")
                 | Some p =>
                     let level := Activity.level p + 1 in
                     if level >? 2
                     then raise (ValueError "Maximum nesting level is 3")
                     else ret level
                 end
           end;;
  db_activity <- add_activity (ActivityCreate.name activity)
                   (ActivityCreate.parent_id activity) level;;
  commit;;
  ret db_activity.

Definition create_building (building : BuildingCreate.t) : Session Building.t :=
  db_building <- add_building (BuildingCreate.address building)
                   (BuildingCreate.latitude building)
                   (BuildingCreate.longitude building);;
  commit;;
  ret db_building.

Fixpoint add_phones (numbers : list str) (organization_id : Z) : Session unit :=
  match numbers with
  | [] => ret tt
  | number :: rest =>
      add_phone number organization_id;; add_phones rest organization_id
  end.

Definition create_organization (org : OrganizationCreate.t)
  : Session Organization.t :=
  db_org <- add_organization (OrganizationCreate.name org)
              (OrganizationCreate.building_id org);;
  add_phones (OrganizationCreate.phone_numbers org) (Organization.id db_org);;
  acts <- query (fun s => filter (fun a => in_ (Activity.id a)
                                          (OrganizationCreate.activity_ids org))
                            (activities s));;
  set_activities db_org acts;;
  commit;;
  ret db_org.

(** ** Search by position *)

Definition point := (float * float)%type.

(** A call of a library function, which returns or raises. *)
Definition call {A} (r : outcome A) : Session A := fun c => (r, c).

Section Geodesic.

(** [geopy.distance.geodesic(p, q).km], a third-party function on floats.
    It returns a distance or raises: the library refuses a latitude outside
    [-90, 90] and a coordinate that is not finite with a [ValueError]. *)
Variable geodesic_km : point -> point -> outcome float.

(** [for b in buildings: if geodesic(...).km <= radius_km: append(b.id)] *)
Fixpoint within_radius (target : point) (radius_km : float)
  (bs : list Building.t) (filtered_building_ids : list Z)
  : Session (list Z) :=
  match bs with
  | [] => ret filtered_building_ids
  | b :: rest =>
      let building_loc := (Building.latitude b, Building.longitude b) in
      km <- call (geodesic_km target building_loc);;
      within_radius target radius_km rest
        (if PrimFloat.leb km radius_km
         then filtered_building_ids ++ [Building.id b]
         else filtered_building_ids)
  end.

Definition get_organizations_by_radius (lat lon radius_km : float)
  : Session (list Organization.t) :=
  bs <- query buildings;;
  let target := (lat, lon) in
  filtered_building_ids <- within_radius target radius_km bs [];;
  query (fun s => filter (fun o => in_ (Organization.building_id o)
                                    filtered_building_ids)
                    (organizations s)).

End Geodesic.

(** [x >= y] on floats is [y <= x].  The comparisons are the store's; on
    numbers they are those of floats, a NaN the stores order in their own
    ways. *)
Definition in_bbox (min_lat max_lat min_lon max_lon : float) (b : Building.t)
  : bool :=
  PrimFloat.leb min_lat (Building.latitude b)
  && PrimFloat.leb (Building.latitude b) max_lat
  && PrimFloat.leb min_lon (Building.longitude b)
  && PrimFloat.leb (Building.longitude b) max_lon.

Definition get_organizations_by_bbox (min_lat max_lat min_lon max_lon : float)
  : Session (list Organization.t) :=
  bs <- query (fun s => filter (in_bbox min_lat max_lat min_lon max_lon)
                          (buildings s));;
  let building_ids := map Building.id bs in
  query (fun s => filter (fun o => in_ (Organization.building_id o) building_ids)
                    (organizations s)).

(** ** Search by name

    [Organization.name.ilike(f"%{name}%")].  In a LIKE pattern [%] stands for
    any run of characters and [_] for any one character; no escape character
    is declared.  ILIKE compares without regard to case: the store's case
    folding is modelled on the Latin, Greek and Cyrillic alphabets. *)

Definition percent : codepoint := 37%N.
Definition underscore : codepoint := 95%N.

Definition between (lo hi c : N) : bool := ((lo <=? c) && (c <=? hi))%N.

Definition lower (c : codepoint) : codepoint :=
  if between 65 90 c then (c + 32)%N
  else if between 192 222 c && negb (c =? 215)%N then (c + 32)%N
  else if between 913 937 c && negb (c =? 930)%N then (c + 32)%N
  else if between 1024 1039 c then (c + 80)%N
  else if between 1040 1071 c then (c + 32)%N
  else c.

Fixpoint like (pattern text : str) : bool :=
  match pattern with
  | [] => match text with [] => true | _ :: _ => false end
  | p :: pattern' =>
      if (p =? percent)%N then
        (fix skip (t : str) : bool :=
           like pattern' t
           || match t with [] => false | _ :: t' => skip t' end) text
      else
        match text with
        | [] => false
        | c :: text' => ((p =? underscore)%N || (p =? c)%N) && like pattern' text'
        end
  end.

Definition ilike (text pattern : str) : bool :=
  like (map lower pattern) (map lower text).

Definition get_organizations_by_name (name : str)
  : Session (list Organization.t) :=
  query (fun s => filter (fun o => ilike (Organization.name o)
                                  ([percent] ++ name ++ [percent]))
                    (organizations s)).

(** ** Notions of the specification *)

(** The store after a request. *)
Definition after {A} (op : Session A) (db : Store) : Store :=
  snd (request op db).

(** The data states the create operations can produce from nothing. *)
Inductive reachable : Store -> Prop :=
| reachable_empty : reachable empty_store
| reachable_building b db :
    reachable db -> reachable (after (create_building b) db)
| reachable_activity a db :
    reachable db -> reachable (after (create_activity a) db)
| reachable_organization o db :
    reachable db -> reachable (after (create_organization o) db).

(** [Activity.parent]: the row the parent reference resolves to. *)
Definition parent (s : Store) (a : Activity.t) : option Activity.t :=
  match Activity.parent_id a with
  | Some p => find_activity s p
  | None => None
  end.

(** [descendant s a d]: [d] is [a] or is below [a] in the tree formed by the
    parent references of the stored activities. *)
Inductive descendant (s : Store) : Activity.t -> Activity.t -> Prop :=
| descendant_self a : descendant s a a
| descendant_child a c d :
    In c (activities s) ->
    Activity.parent_id c = Some (Activity.id a) ->
    descendant s c d ->
    descendant s a d.

(** [s] occurs in [t] as a run of consecutive characters. *)
Definition substring (s t : str) : Prop :=
  exists pre post, t = pre ++ s ++ post.

Definition wildcard_free (s : str) : Prop :=
  ~ In percent s /\ ~ In underscore s.

(** Equality of floats, as [==] has it. *)
Definition same_float (x y : float) : Prop := PrimFloat.eqb x y = true.

(** ** The rows of [scripts/seed.py] *)

Definition seed_buildings : Store :=
  after (create_building
           (BuildingCreate.mk (utf8 "г. Санкт-Петербург, ул. Блюхера 32/1")
              59.9343%float 30.3351%float))
    (after (create_building
              (BuildingCreate.mk (utf8 "г. Москва, ул. Ленина 1, офис 3")
                 55.7558%float 37.6176%float))
       empty_store).

Definition seed_food : Store :=
  after (create_activity (ActivityCreate.mk (utf8 "Молочная продукция") (Some 1)))
    (after (create_activity (ActivityCreate.mk (utf8 "Мясная продукция") (Some 1)))
       (after (create_activity (ActivityCreate.mk (utf8 "Еда") None))
          seed_buildings)).

Definition seed_cars : Store :=
  after (create_activity (ActivityCreate.mk (utf8 "Запчасти") (Some 5)))
    (after (create_activity (ActivityCreate.mk (utf8 "Легковые") (Some 4)))
       (after (create_activity (ActivityCreate.mk (utf8 "Автомобили") None))
          seed_food)).

Definition seed_store : Store :=
  after (create_organization
           (OrganizationCreate.mk (utf8 "Автосервис Скорость") 2
              [utf8 "3-333-333"] [6]))
    (after (create_organization
              (OrganizationCreate.mk (utf8 "ООО Рога и Копыта") 1
                 [utf8 "2-222-222"; utf8 "8-923-666-13-13"] [2; 3]))
       seed_cars).

(** The coordinates the geodesic library accepts. *)
Definition valid_point (p : point) : bool :=
  PrimFloat.leb (-90)%float (fst p) && PrimFloat.leb (fst p) 90%float
  && PrimFloat.ltb PrimFloat.neg_infinity (snd p)
  && PrimFloat.ltb (snd p) PrimFloat.infinity.

(** A stand-in for the geodesic distance, used to run the radius search on
    concrete rows: the sum of the differences in latitude and longitude,
    and an error on coordinates out of range. *)
Definition degrees_apart (p q : point) : outcome float :=
  if valid_point p && valid_point q
  then Return (PrimFloat.abs (fst p - fst q)
               + PrimFloat.abs (snd p - snd q))%float
  else Raise (ValueError "Latitude must be in the [-90; 90] range.").

(** The invariant of the stored rows. *)
Record well_formed (s : Store) : Prop := mk_well_formed {
  wf_activity_keys : NoDup (map Activity.id (activities s));
  wf_activity_positive :
    forall a, In a (activities s) -> 1 <= Activity.id a;
  wf_level_range :
    forall a, In a (activities s) -> 0 <= Activity.level a <= 2;
  wf_level_child :
    forall a pa, In a (activities s) -> parent s a = Some pa ->
                 Activity.level a = Activity.level pa + 1;
  wf_level_root :
    forall a, In a (activities s) -> parent s a = None -> Activity.level a = 0;
  wf_parent_resolves :
    forall a p, In a (activities s) -> Activity.parent_id a = Some p ->
                p <> 0 -> exists pa, find_activity s p = Some pa;
  wf_organization_keys : NoDup (map Organization.id (organizations s));
  wf_links :
    forall l, In l (organization_activity s) ->
              In (fst l) (map Organization.id (organizations s))
}.

(** The store with one more activity, organization or building row. *)
Definition with_activity (db : Store) (row : Activity.t) : Store :=
  mkStore (buildings db) (activities db ++ [row]) (organizations db)
    (phones db) (organization_activity db).

Definition with_building (db : Store) (row : Building.t) : Store :=
  mkStore (buildings db ++ [row]) (activities db) (organizations db)
    (phones db) (organization_activity db).

Definition new_activity (db : Store) (a : ActivityCreate.t) (level : Z)
  : Activity.t :=
  Activity.mk (next_id (map Activity.id (activities db)))
    (ActivityCreate.name a) (ActivityCreate.parent_id a) level.

Definition parent_not_found : exn := ValueError "Parent activity not found".
Definition max_nesting_exceeded : exn := ValueError "Maximum nesting level is 3".

Definition new_organization (db : Store) (o : OrganizationCreate.t)
  : Organization.t :=
  Organization.mk (next_id (map Organization.id (organizations db)))
    (OrganizationCreate.name o) (OrganizationCreate.building_id o).

(** The activities that the ids of a request resolve to. *)
Definition resolved (db : Store) (o : OrganizationCreate.t) : list Activity.t :=
  filter (fun a => in_ (Activity.id a) (OrganizationCreate.activity_ids o))
    (activities db).

(** What a call of [create_activity] can do. *)
Inductive create_activity_result (a : ActivityCreate.t) (db : Store)
  : outcome Activity.t * Store -> Prop :=
| created_root :
    ActivityCreate.parent_id a = None \/ ActivityCreate.parent_id a = Some 0 ->
    create_activity_result a db
      (Return (new_activity db a 0), with_activity db (new_activity db a 0))
| created_child p pa :
    ActivityCreate.parent_id a = Some p -> p <> 0 ->
    find_activity db p = Some pa -> Activity.level pa + 1 <= 2 ->
    create_activity_result a db
      (Return (new_activity db a (Activity.level pa + 1)),
       with_activity db (new_activity db a (Activity.level pa + 1)))
| rejected_missing p :
    ActivityCreate.parent_id a = Some p -> p <> 0 ->
    find_activity db p = None ->
    create_activity_result a db (Raise parent_not_found, db)
| rejected_too_deep p pa :
    ActivityCreate.parent_id a = Some p -> p <> 0 ->
    find_activity db p = Some pa -> 2 < Activity.level pa + 1 ->
    create_activity_result a db (Raise max_nesting_exceeded, db).

(** The test of the radius search on one building whose distance the
    library computes. *)
Definition kept (geodesic_km : point -> point -> outcome float)
  (target : point) (radius_km : float) (b : Building.t) : bool :=
  match geodesic_km target (Building.latitude b, Building.longitude b) with
  | Return km => PrimFloat.leb km radius_km
  | Raise _ => false
  end.

(** The library computes the distance from [target] to every building. *)
Definition located (geodesic_km : point -> point -> outcome float)
  (target : point) (bs : list Building.t) : Prop :=
  forall b, In b bs ->
    exists km,
      geodesic_km target (Building.latitude b, Building.longitude b)
      = Return km.

(** A store outside the invariant: an activity that is its own parent. *)
Definition cyclic_store : Store :=
  mkStore [] [Activity.mk 1 (utf8 "x") (Some 1) 0] [] [] [].

(** [frame m]: the computation leaves the session as it found it. *)
Definition frame {A} (m : Session A) : Prop := forall c, snd (m c) = c.

(** ** The API layer ([app/api/endpoints.py])

    A handler returns a body, raises an [HTTPException], or lets an
    exception of the catalog pass.  How the framework turns a returned body
    into a response (the route's response model) is not part of the
    handlers and is left out. *)

Inductive response (A : Type) :=
| Ok (body : A)
| HTTPException (status_code : Z) (detail : string)
| Unhandled (e : exn).
Arguments Ok {A} body.
Arguments HTTPException {A} status_code detail.
Arguments Unhandled {A} e.

(** [verify_api_key]: the exception it raises, if it raises. *)
Definition verify_api_key (api_key : string) : option (Z * string) :=
  if negb (String.eqb api_key "secret-key-123")
  then Some (403, "Invalid API Key"%string)
  else None.

(** A route: its dependencies [get_db] and [verify_api_key] are resolved
    first, then the handler runs in the session, which is closed at the
    end. *)
Definition serve {A} (api_key : string) (handler : Session (response A))
  (db : Store) : response A * Store :=
  match verify_api_key api_key with
  | Some (status_code, detail) => (HTTPException status_code detail, db)
  | None =>
      match request handler db with
      | (Return r, db') => (r, db')
      | (Raise e, db') => (Unhandled e, db')
      end
  end.

(** [try: body except ValueError as e: handler(str(e))] *)
Definition except_ValueError {A} (body : Session A)
  (handler : string -> Session A) : Session A :=
  fun c =>
    match body c with
    | (Raise (ValueError msg), c') => handler msg c'
    | r => r
    end.

(** A query parameter with a default value. *)
Definition default (d : Z) (x : option Z) : Z :=
  match x with Some v => v | None => d end.

Module endpoints.

Definition read_buildings (api_key : string) (skip limit : option Z) :=
  serve api_key
    (buildings <- get_buildings (default 0 skip) (default 100 limit);;
     ret (Ok buildings)).

Definition read_organizations_in_building (api_key : string) (building_id : Z) :=
  serve api_key
    (orgs <- get_organizations_in_building building_id;;
     match orgs with
     | [] => ret (HTTPException 404 "No organizations found in this building")
     | _ :: _ => ret (Ok orgs)
     end).

Definition read_organizations_by_activity (depth : nat) (api_key : string)
  (activity_id : Z) :=
  serve api_key
    (orgs <- get_organizations_by_activity depth activity_id;;
     match orgs with
     | [] => ret (HTTPException 404 "No organizations found for this activity")
     | _ :: _ => ret (Ok orgs)
     end).

Definition read_organizations_by_radius
  (geodesic_km : point -> point -> outcome float) (api_key : string)
  (lat lon radius_km : float) :=
  serve api_key
    (orgs <- get_organizations_by_radius geodesic_km lat lon radius_km;;
     ret (Ok orgs)).

Definition read_organizations_by_bbox (api_key : string)
  (min_lat max_lat min_lon max_lon : float) :=
  serve api_key
    (orgs <- get_organizations_by_bbox min_lat max_lat min_lon max_lon;;
     ret (Ok orgs)).

Definition read_organization (api_key : string) (org_id : Z) :=
  serve api_key
    (org <- get_organization org_id;;
     match org with
     | None => ret (HTTPException 404 "Organization not found")
     | Some o => ret (Ok o)
     end).

Definition search_organizations_by_name (api_key : string) (name : str) :=
  serve api_key (orgs <- get_organizations_by_name name;; ret (Ok orgs)).

Definition create_activity (api_key : string) (activity : ActivityCreate.t) :=
  serve api_key
    (except_ValueError
       (row <- create_activity activity;; ret (Ok row))
       (fun msg => ret (HTTPException 400 msg))).

Definition create_building (api_key : string) (building : BuildingCreate.t) :=
  serve api_key (row <- create_building building;; ret (Ok row)).

Definition create_organization (api_key : string) (org : OrganizationCreate.t) :=
  serve api_key (row <- create_organization org;; ret (Ok row)).

End endpoints.

(** ** Seeding ([scripts/seed.py]) *)

Definition rollback : Session unit :=
  fun c => (Return tt, mkConn (persisted c) (persisted c)).

(** [try: body except Exception: handler] *)
Definition except_Exception {A} (body : Session A) (handler : exn -> Session A)
  : Session A :=
  fun c =>
    match body c with
    | (Raise e, c') => handler e c'
    | r => r
    end.

Definition seed_data : Session unit :=
  except_Exception
    (count <- query (fun s => Z.of_nat (List.length (buildings s)));;
     if count >? 0 then ret tt
     else
       b1 <- create_building
               (BuildingCreate.mk (utf8 "г. Москва, ул. Ленина 1, офис 3")
                  55.7558%float 37.6176%float);;
       b2 <- create_building
               (BuildingCreate.mk (utf8 "г. Санкт-Петербург, ул. Блюхера 32/1")
                  59.9343%float 30.3351%float);;
       food <- create_activity (ActivityCreate.mk (utf8 "Еда") None);;
       meat <- create_activity
                 (ActivityCreate.mk (utf8 "Мясная продукция")
                    (Some (Activity.id food)));;
       dairy <- create_activity
                  (ActivityCreate.mk (utf8 "Молочная продукция")
                     (Some (Activity.id food)));;
       cars <- create_activity (ActivityCreate.mk (utf8 "Автомобили") None);;
       light <- create_activity
                  (ActivityCreate.mk (utf8 "Легковые") (Some (Activity.id cars)));;
       parts <- create_activity
                  (ActivityCreate.mk (utf8 "Запчасти") (Some (Activity.id light)));;
       org1 <- create_organization
                 (OrganizationCreate.mk (utf8 "ООО Рога и Копыта")
                    (Building.id b1)
                    [utf8 "2-222-222"; utf8 "8-923-666-13-13"]
                    [Activity.id meat; Activity.id dairy]);;
       org2 <- create_organization
                 (OrganizationCreate.mk (utf8 "Автосервис Скорость")
                    (Building.id b2) [utf8 "3-333-333"] [Activity.id parts]);;
       ret tt)
    (fun _ => rollback).

(** ** More notions *)

(** Every table of [db'] starts with the rows of [db], unchanged. *)
Definition extends (db db' : Store) : Prop :=
  (exists rows, buildings db' = buildings db ++ rows)
  /\ (exists rows, activities db' = activities db ++ rows)
  /\ (exists rows, organizations db' = organizations db ++ rows)
  /\ (exists rows, phones db' = phones db ++ rows)
  /\ (exists rows, organization_activity db' = organization_activity db ++ rows).

(** Keys and references of the tables the activity invariant leaves out. *)
Record referential (s : Store) : Prop := mk_referential {
  ref_building_keys : NoDup (map Building.id (buildings s));
  ref_phone_keys : NoDup (map Phone.id (phones s));
  ref_phone_owner :
    forall p, In p (phones s) ->
              In (Phone.organization_id p)
                (map Organization.id (organizations s));
  ref_link_activity :
    forall l, In l (organization_activity s) ->
              In (snd l) (map Activity.id (activities s))
}.

(** The keys of the phones are at least 1. *)
Definition phone_keys_positive (s : Store) : Prop :=
  forall p, In p (phones s) -> 1 <= Phone.id p.

(** [a] is a NaN: it is not equal to itself. *)
Definition is_nan (a : float) : Prop := PrimFloat.eqb a a = false.

(** [a] is a number (finite or infinite), not a NaN.  On numbers the order
    of the stores agrees with the order of floats. *)
Definition is_number (a : float) : Prop := PrimFloat.eqb a a = true.

(** Text that every store takes: the PostgreSQL driver refuses a string
    with a NUL character. *)
Definition storable (s : str) : Prop := ~ In 0%N s.

(** * Properties *)

(** ** Sessions that only read *)

Lemma frame_ret {A} (a : A) : frame (ret a).
Proof. intros c; reflexivity. Qed.

Lemma frame_raise {A} (e : exn) : frame (@raise A e).
Proof. intros c; reflexivity. Qed.

Lemma frame_query {A} (q : Store -> A) : frame (query q).
Proof. intros c; reflexivity. Qed.

Lemma frame_bind {A B} (m : Session A) (k : A -> Session B) :
  frame m -> (forall a, frame (k a)) -> frame (bind m k).
Proof.
  intros Hm Hk c. unfold bind.
  specialize (Hm c). destruct (m c) as [[a | e] c']; simpl in Hm; subst c'.
  - apply Hk.
  - reflexivity.
Qed.

Lemma frame_extend_each {A B} (f : A -> Session (list B)) children :
  (forall x, frame (f x)) -> forall result, frame (extend_each f children result).
Proof.
  intros Hf. induction children as [| child rest IH]; intros result; simpl.
  - apply frame_ret.
  - apply frame_bind; [apply Hf | intros r; apply IH].
Qed.

Lemma frame_get_all_children depth : forall act, frame (get_all_children depth act).
Proof.
  induction depth as [| d IH]; intros act; simpl.
  - apply frame_raise.
  - apply frame_bind; [apply frame_query |].
    intros children. apply frame_extend_each. exact IH.
Qed.

Lemma frame_call {A} (r : outcome A) : frame (call r).
Proof. intros c; reflexivity. Qed.

Lemma frame_within_radius geodesic_km target radius_km bs :
  forall filtered, frame (within_radius geodesic_km target radius_km bs filtered).
Proof.
  induction bs as [| b rest IH]; intros filtered; simpl.
  - apply frame_ret.
  - apply frame_bind; [apply frame_call | intros km; apply IH].
Qed.

Lemma frame_get_organizations_by_radius geodesic_km lat lon radius_km :
  frame (get_organizations_by_radius geodesic_km lat lon radius_km).
Proof.
  unfold get_organizations_by_radius.
  apply frame_bind; [apply frame_query | intros bs].
  apply frame_bind; [apply frame_within_radius | intros ids].
  apply frame_query.
Qed.

Create HintDb frame.

#[local] Hint Resolve frame_ret frame_raise frame_query frame_bind
  frame_extend_each frame_get_all_children : frame.

Lemma frame_get_organizations_by_activity depth activity_id :
  frame (get_organizations_by_activity depth activity_id).
Proof.
  unfold get_organizations_by_activity.
  apply frame_bind; [apply frame_query |].
  intros [act |]; auto with frame.
Qed.

Lemma frame_request {A} (m : Session A) db :
  frame m -> snd (request m db) = db.
Proof.
  intros Hm. unfold request. specialize (Hm (open db)).
  destruct (m (open db)) as [r c]. simpl in *. subst c. reflexivity.
Qed.

(** C10: every read operation leaves the data state as it was: the session
    (persisted rows and the transaction's view of buildings, activities,
    organizations, phones and links) after the call is the session before
    it, whatever the arguments and whatever distance function is used. *)
Theorem reads_leave_state_unchanged :
  forall c : Conn,
    (forall building_id, snd (get_building building_id c) = c)
    /\ (forall skip limit, snd (get_buildings skip limit c) = c)
    /\ (forall org_id, snd (get_organization org_id c) = c)
    /\ (forall building_id, snd (get_organizations_in_building building_id c) = c)
    /\ (forall depth activity_id,
          snd (get_organizations_by_activity depth activity_id c) = c)
    /\ (forall geodesic_km lat lon radius_km,
          snd (get_organizations_by_radius geodesic_km lat lon radius_km c) = c)
    /\ (forall min_lat max_lat min_lon max_lon,
          snd (get_organizations_by_bbox min_lat max_lat min_lon max_lon c) = c)
    /\ (forall name, snd (get_organizations_by_name name c) = c).
Proof.
  intros c. repeat split; intros;
    first [ apply frame_get_organizations_by_activity
          | apply frame_get_organizations_by_radius
          | apply (frame_query _ c)
          | unfold get_organizations_by_bbox;
            apply frame_bind; auto with frame ].
Qed.

(** The same for a whole request: the store after it is the store before. *)
Lemma read_requests_leave_store_unchanged db :
  (forall depth activity_id,
      snd (request (get_organizations_by_activity depth activity_id) db) = db)
  /\ (forall name, snd (request (get_organizations_by_name name) db) = db)
  /\ (forall skip limit, snd (request (get_buildings skip limit) db) = db).
Proof.
  repeat split; intros; apply frame_request;
    first [ apply frame_get_organizations_by_activity | apply frame_query ].
Qed.

(** ** Creating activities *)

Ltac run_session :=
  unfold request, after, create_activity, create_building, add_activity,
    add_building, bind, query, update, commit, ret, raise, open,
    new_activity, with_activity, with_building; simpl.

Lemma create_activity_root a db :
  ActivityCreate.parent_id a = None ->
  request (create_activity a) db
  = (Return (new_activity db a 0), with_activity db (new_activity db a 0)).
Proof. intros H. run_session. rewrite H. reflexivity. Qed.

Lemma create_activity_zero a db :
  ActivityCreate.parent_id a = Some 0 ->
  request (create_activity a) db
  = (Return (new_activity db a 0), with_activity db (new_activity db a 0)).
Proof. intros H. run_session. rewrite H. reflexivity. Qed.

Lemma create_activity_missing a db p :
  ActivityCreate.parent_id a = Some p -> p <> 0 ->
  find_activity db p = None ->
  request (create_activity a) db = (Raise parent_not_found, db).
Proof.
  intros H Hp Hfind. run_session. rewrite H.
  destruct (Z.eqb_spec p 0) as [E | _]; [contradiction |].
  simpl. rewrite Hfind. destruct db; reflexivity.
Qed.

Lemma create_activity_too_deep a db p pa :
  ActivityCreate.parent_id a = Some p -> p <> 0 ->
  find_activity db p = Some pa -> 2 < Activity.level pa + 1 ->
  request (create_activity a) db = (Raise max_nesting_exceeded, db).
Proof.
  intros H Hp Hfind Hdeep. run_session. rewrite H.
  destruct (Z.eqb_spec p 0) as [E | _]; [contradiction |].
  simpl. rewrite Hfind.
  destruct (Z.gtb_spec (Activity.level pa + 1) 2) as [_ | Hle]; [| lia].
  destruct db; reflexivity.
Qed.

Lemma create_activity_child a db p pa :
  ActivityCreate.parent_id a = Some p -> p <> 0 ->
  find_activity db p = Some pa -> Activity.level pa + 1 <= 2 ->
  request (create_activity a) db
  = (Return (new_activity db a (Activity.level pa + 1)),
     with_activity db (new_activity db a (Activity.level pa + 1))).
Proof.
  intros H Hp Hfind Hok. run_session. rewrite H.
  destruct (Z.eqb_spec p 0) as [E | _]; [contradiction |].
  simpl. rewrite Hfind.
  destruct (Z.gtb_spec (Activity.level pa + 1) 2) as [Hgt | _]; [lia |].
  reflexivity.
Qed.

Lemma create_activity_cases a db :
  create_activity_result a db (request (create_activity a) db).
Proof.
  destruct (ActivityCreate.parent_id a) as [p |] eqn:Hpid.
  - destruct (Z.eq_dec p 0) as [-> | Hp].
    + rewrite (create_activity_zero a db Hpid). constructor. now right.
    + destruct (find_activity db p) as [pa |] eqn:Hfind.
      * destruct (Z_le_gt_dec (Activity.level pa + 1) 2) as [Hok | Hdeep].
        -- rewrite (create_activity_child a db p pa Hpid Hp Hfind Hok).
           now apply created_child with (p := p).
        -- rewrite (create_activity_too_deep a db p pa Hpid Hp Hfind);
             [| lia].
           apply rejected_too_deep with (p := p) (pa := pa); auto; lia.
      * rewrite (create_activity_missing a db p Hpid Hp Hfind).
        now apply rejected_missing with (p := p).
  - rewrite (create_activity_root a db Hpid). constructor. now left.
Qed.

(** C3: when [create_activity] fails with a validation error (parent not
    found, or maximum nesting exceeded), the data state is unchanged:
    nothing is persisted and the number of activities is what it was. *)
Theorem create_activity_failure_persists_nothing :
  forall (a : ActivityCreate.t) (db : Store) (msg : string),
    fst (request (create_activity a) db) = Raise (ValueError msg) ->
    snd (request (create_activity a) db) = db
    /\ List.length (activities (snd (request (create_activity a) db)))
       = List.length (activities db).
Proof.
  intros a db msg Hfail.
  destruct (create_activity_cases a db); simpl in *;
    try discriminate; split; reflexivity.
Qed.

(** The end-to-end scenario of the specification: a fourth level under the
    grandchild "Запчасти" (id 6, level 2) is refused and nothing changes. *)
Lemma create_activity_failure_persists_nothing_witness :
  snd (request (create_activity (ActivityCreate.mk (utf8 "Шины") (Some 6)))
         seed_store) = seed_store
  /\ List.length (activities
               (snd (request
                       (create_activity (ActivityCreate.mk (utf8 "Шины") (Some 6)))
                       seed_store)))
     = List.length (activities seed_store).
Proof.
  apply (create_activity_failure_persists_nothing
           (ActivityCreate.mk (utf8 "Шины") (Some 6)) seed_store
           "Maximum nesting level is 3").
  vm_compute. reflexivity.
Defined.

(** C2, at a parent id of zero: the guard [if activity.parent_id:] takes 0 for
    an omitted parent, so the parent is not looked up, nothing is raised, and
    an activity with parent id 0 and level 0 is persisted and returned; this
    in every data state, and in the empty one no activity has id 0. *)
Theorem create_activity_parent_zero :
  forall (db : Store) (name : str),
    request (create_activity (ActivityCreate.mk name (Some 0))) db
    = (Return (Activity.mk (next_id (map Activity.id (activities db)))
                 name (Some 0) 0),
       with_activity db
         (Activity.mk (next_id (map Activity.id (activities db)))
            name (Some 0) 0))
    /\ find_activity empty_store 0 = None.
Proof.
  intros db name. split; [| reflexivity].
  apply (create_activity_zero (ActivityCreate.mk name (Some 0)) db).
  reflexivity.
Qed.

(** Away from a parent id of zero [create_activity] is as specified: it
    raises "parent not found" exactly when the parent is missing, "maximum
    nesting" exactly when the level would pass 2, nothing else, and
    otherwise persists and returns an activity one level below its parent,
    or at level 0 without one. *)
Lemma create_activity_nonzero_parent a db :
  ActivityCreate.parent_id a <> Some 0 ->
  (fst (request (create_activity a) db) = Raise parent_not_found
   <-> exists p, ActivityCreate.parent_id a = Some p
                 /\ find_activity db p = None)
  /\ (fst (request (create_activity a) db) = Raise max_nesting_exceeded
      <-> exists p pa, ActivityCreate.parent_id a = Some p
                       /\ find_activity db p = Some pa
                       /\ 2 < Activity.level pa + 1)
  /\ (forall e, fst (request (create_activity a) db) = Raise e ->
                e = parent_not_found \/ e = max_nesting_exceeded)
  /\ (forall row, fst (request (create_activity a) db) = Return row ->
        snd (request (create_activity a) db) = with_activity db row
        /\ Activity.name row = ActivityCreate.name a
        /\ Activity.parent_id row = ActivityCreate.parent_id a
        /\ match ActivityCreate.parent_id a with
           | Some p => exists pa, find_activity db p = Some pa
                                  /\ Activity.level row = Activity.level pa + 1
           | None => Activity.level row = 0
           end).
Proof.
  intros Hnz.
  destruct (create_activity_cases a db)
    as [[Hr | Hr] | p pa Hpid Hp Hfind Hok | p Hpid Hp Hfind
        | p pa Hpid Hp Hfind Hdeep]; simpl;
    try contradiction; (split; [| split; [| split]]).
  - split; [discriminate | intros (p & Hpid & _); congruence].
  - split; [discriminate | intros (p & pa & Hpid & _); congruence].
  - discriminate.
  - intros row Hrow. injection Hrow as <-. simpl. rewrite Hr. auto.
  - split; [discriminate | intros (q & Hq & Hnone); congruence].
  - split; [discriminate |]. intros (q & qa & Hq & Hqa & Hdeep).
    rewrite Hpid in Hq. injection Hq as <-.
    rewrite Hfind in Hqa. injection Hqa as <-. lia.
  - discriminate.
  - intros row Hrow. injection Hrow as <-. simpl. rewrite Hpid.
    repeat split. now exists pa.
  - split; [intros _; now exists p | reflexivity].
  - split; [discriminate |]. intros (q & qa & Hq & Hqa & _).
    rewrite Hpid in Hq. injection Hq as <-. congruence.
  - intros e He. injection He as <-. now left.
  - discriminate.
  - split; [discriminate |]. intros (q & Hq & Hnone).
    rewrite Hpid in Hq. injection Hq as <-. congruence.
  - split; [intros _; now exists p, pa | reflexivity].
  - intros e He. injection He as <-. now right.
  - discriminate.
Qed.

(** ** Keys and lookups *)

Lemma next_id_above ids k : In k ids -> k < next_id ids.
Proof.
  unfold next_id. induction ids as [| i ids IH]; cbn [fold_right In]; [tauto |].
  intros [-> | Hin]; [lia | specialize (IH Hin); lia].
Qed.

Lemma next_id_positive ids : 1 <= next_id ids.
Proof.
  unfold next_id. induction ids as [| i ids IH]; cbn [fold_right]; lia.
Qed.

Lemma next_id_fresh ids : ~ In (next_id ids) ids.
Proof. intros Hin. apply next_id_above in Hin. lia. Qed.

Lemma in_spec x values : in_ x values = true <-> In x values.
Proof.
  unfold in_. rewrite existsb_exists. split.
  - intros (y & Hy & Heq). apply Z.eqb_eq in Heq. now subst.
  - intros Hin. exists x. split; [assumption | apply Z.eqb_refl].
Qed.

Lemma first_app {A} (p : A -> bool) l l' :
  first p (l ++ l')
  = match first p l with Some x => Some x | None => first p l' end.
Proof.
  unfold first. induction l as [| x l IH]; simpl; [reflexivity |].
  destruct (p x); [reflexivity | exact IH].
Qed.

Lemma find_activity_some s k a :
  find_activity s k = Some a -> In a (activities s) /\ Activity.id a = k.
Proof.
  unfold find_activity, first. intros H. apply find_some in H.
  destruct H as [Hin Heq]. apply Z.eqb_eq in Heq. auto.
Qed.

Lemma find_activity_none s k :
  find_activity s k = None ->
  forall a, In a (activities s) -> Activity.id a <> k.
Proof.
  unfold find_activity, first. intros H a Hin Heq.
  apply (find_none _ _ H) in Hin. apply Z.eqb_neq in Hin. contradiction.
Qed.

(** With distinct keys, looking a stored row up by its key finds that row. *)
Lemma first_by_key {A} (key : A -> Z) (rows : list A) (a : A) :
  NoDup (map key rows) -> In a rows ->
  first (fun x => key x =? key a) rows = Some a.
Proof.
  unfold first. induction rows as [| x rows IH]; simpl; [tauto |].
  intros Hnd Hin. inversion Hnd as [| ? ? Hnotin Hnd']; subst.
  destruct Hin as [-> | Hin].
  - now rewrite Z.eqb_refl.
  - destruct (Z.eqb_spec (key x) (key a)) as [Heq | _].
    + exfalso. apply Hnotin. rewrite Heq. now apply in_map.
    + now apply IH.
Qed.

Lemma find_activity_in s a :
  NoDup (map Activity.id (activities s)) -> In a (activities s) ->
  find_activity s (Activity.id a) = Some a.
Proof. apply first_by_key. Qed.

Lemma find_activity_with_activity db row k :
  find_activity (with_activity db row) k
  = match find_activity db k with
    | Some a => Some a
    | None => if Activity.id row =? k then Some row else None
    end.
Proof.
  unfold find_activity, with_activity. simpl. rewrite first_app.
  destruct (first _ (activities db)); [reflexivity |].
  unfold first. simpl. destruct (Activity.id row =? k); reflexivity.
Qed.

Lemma NoDup_snoc (ids : list Z) k : NoDup ids -> ~ In k ids -> NoDup (ids ++ [k]).
Proof.
  intros Hnd Hk. apply NoDup_app. repeat split.
  - assumption.
  - constructor; [simpl; tauto | constructor].
  - intros x Hx [-> | []]. contradiction.
Qed.

(** ** The invariant holds in every reachable state *)

Lemma well_formed_empty : well_formed empty_store.
Proof.
  constructor; simpl; try (intros; contradiction); constructor.
Qed.

Lemma well_formed_same_tables s s' :
  activities s' = activities s ->
  map Organization.id (organizations s') = map Organization.id (organizations s) ->
  organization_activity s' = organization_activity s ->
  well_formed s -> well_formed s'.
Proof.
  intros Ha Ho Hl [H1 H2 H3 H4 H5 H6 H7 H8].
  assert (Hparent : forall a, parent s' a = parent s a).
  { intros a. unfold parent, find_activity. now rewrite Ha. }
  constructor; try rewrite Ha; try rewrite Ho; try rewrite Hl; auto.
  - intros a pa Hin. rewrite Hparent. now apply H4.
  - intros a Hin. rewrite Hparent. now apply H5.
  - intros a p Hin Hp Hnz. unfold find_activity. rewrite Ha.
    now apply (H6 a p).
Qed.

Lemma no_activity_zero s :
  well_formed s -> find_activity s 0 = None.
Proof.
  intros Hwf. destruct (find_activity s 0) as [a |] eqn:H; [| reflexivity].
  apply find_activity_some in H. destruct H as [Hin Hid].
  apply (wf_activity_positive s Hwf) in Hin. lia.
Qed.

(** The parent of a stored activity is the same after one more is stored. *)
Lemma parent_with_activity db row a :
  well_formed db -> In a (activities db) ->
  Activity.id row = next_id (map Activity.id (activities db)) ->
  parent (with_activity db row) a = parent db a.
Proof.
  intros Hwf Hin Hid. unfold parent.
  destruct (Activity.parent_id a) as [p |] eqn:Hp; [| reflexivity].
  rewrite find_activity_with_activity.
  destruct (find_activity db p) as [pa |] eqn:Hfind; [reflexivity |].
  destruct (Z.eqb_spec (Activity.id row) p) as [Heq | _]; [| reflexivity].
  exfalso. destruct (Z.eq_dec p 0) as [-> | Hnz].
  - pose proof (next_id_positive (map Activity.id (activities db))). lia.
  - destruct (wf_parent_resolves db Hwf a p Hin Hp Hnz) as [pa Hpa]. congruence.
Qed.

Lemma well_formed_with_activity db a level :
  well_formed db ->
  match parent db (new_activity db a level) with
  | Some pa => level = Activity.level pa + 1 /\ level <= 2
  | None => level = 0
           /\ (ActivityCreate.parent_id a = None
               \/ ActivityCreate.parent_id a = Some 0)
  end ->
  well_formed (with_activity db (new_activity db a level)).
Proof.
  intros Hwf Hlevel.
  set (row := new_activity db a level) in *.
  assert (Hid : Activity.id row = next_id (map Activity.id (activities db)))
    by reflexivity.
  assert (Hrow : parent (with_activity db row) row = parent db row).
  { unfold parent. destruct (Activity.parent_id row) as [p |] eqn:Hp;
      [| reflexivity].
    rewrite find_activity_with_activity.
    destruct (find_activity db p) as [pa |] eqn:Hfind; [reflexivity |].
    destruct (Z.eqb_spec (Activity.id row) p) as [Heq | _]; [| reflexivity].
    exfalso. unfold parent in Hlevel. rewrite Hp, Hfind in Hlevel.
    destruct Hlevel as [_ [Hnone | Hzero]]; simpl in Hp.
    - congruence.
    - rewrite Hzero in Hp. injection Hp as <-.
      pose proof (next_id_positive (map Activity.id (activities db))). lia. }
  assert (Hrange : 0 <= level <= 2).
  { destruct (parent db row) as [pa |] eqn:Hpa.
    - destruct Hlevel as [-> Hle]. split; [| assumption].
      unfold parent in Hpa. destruct (Activity.parent_id row); [| discriminate].
      apply find_activity_some in Hpa. destruct Hpa as [Hin _].
      apply (wf_level_range db Hwf) in Hin. lia.
    - destruct Hlevel as [-> _]. lia. }
  constructor; simpl.
  - rewrite map_app. simpl. apply NoDup_snoc.
    + apply (wf_activity_keys db Hwf).
    + apply next_id_fresh.
  - intros x Hx. apply in_app_or in Hx. destruct Hx as [Hx | [<- | []]].
    + now apply (wf_activity_positive db Hwf).
    + apply next_id_positive.
  - intros x Hx. apply in_app_or in Hx. destruct Hx as [Hx | [<- | []]].
    + now apply (wf_level_range db Hwf).
    + exact Hrange.
  - intros x pa Hx Hpa. apply in_app_or in Hx. destruct Hx as [Hx | [<- | []]].
    + rewrite (parent_with_activity db row x Hwf Hx Hid) in Hpa.
      now apply (wf_level_child db Hwf).
    + rewrite Hrow in Hpa. rewrite Hpa in Hlevel. simpl. tauto.
  - intros x Hx Hnone. apply in_app_or in Hx. destruct Hx as [Hx | [<- | []]].
    + rewrite (parent_with_activity db row x Hwf Hx Hid) in Hnone.
      now apply (wf_level_root db Hwf).
    + rewrite Hrow in Hnone. rewrite Hnone in Hlevel. simpl. tauto.
  - intros x p Hx Hp Hnz. rewrite find_activity_with_activity.
    apply in_app_or in Hx. destruct Hx as [Hx | [<- | []]].
    + destruct (wf_parent_resolves db Hwf x p Hx Hp Hnz) as [pa ->].
      now exists pa.
    + unfold parent in Hlevel. rewrite Hp in Hlevel.
      destruct (find_activity db p) as [pa |]; [now exists pa |].
      destruct Hlevel as [_ [Hnone | Hzero]]; simpl in Hp; congruence.
  - apply (wf_organization_keys db Hwf).
  - apply (wf_links db Hwf).
Qed.

Lemma well_formed_create_activity a db :
  well_formed db -> well_formed (after (create_activity a) db).
Proof.
  intros Hwf. unfold after.
  destruct (create_activity_cases a db)
    as [Hr | p pa Hpid Hp Hfind Hok | |]; simpl; try assumption.
  - apply well_formed_with_activity; [assumption |].
    unfold parent. simpl.
    destruct Hr as [-> | ->]; [auto |].
    rewrite (no_activity_zero db Hwf). auto.
  - apply well_formed_with_activity; [assumption |].
    unfold parent. simpl. rewrite Hpid, Hfind. auto.
Qed.

Lemma create_building_run b db :
  request (create_building b) db
  = (let row := Building.mk (next_id (map Building.id (buildings db)))
                  (BuildingCreate.address b) (BuildingCreate.latitude b)
                  (BuildingCreate.longitude b)
     in (Return row, with_building db row)).
Proof. reflexivity. Qed.

Lemma well_formed_create_building b db :
  well_formed db -> well_formed (after (create_building b) db).
Proof.
  unfold after. rewrite create_building_run. simpl.
  now apply well_formed_same_tables.
Qed.

(** ** Creating organizations *)

Lemma add_phones_run numbers organization_id :
  forall c, exists added,
    add_phones numbers organization_id c
    = (Return tt,
       mkConn (persisted c)
         (mkStore (buildings (pending c)) (activities (pending c))
            (organizations (pending c)) (phones (pending c) ++ added)
            (organization_activity (pending c))))
    /\ map Phone.number added = numbers
    /\ Forall (fun p => Phone.organization_id p = organization_id) added.
Proof.
  induction numbers as [| number rest IH]; intros c.
  - exists []. simpl. rewrite app_nil_r. destruct c as [p [b a o ph l]].
    repeat split. constructor.
  - simpl. unfold bind at 1. unfold add_phone, bind, query, update, ret. simpl.
    match goal with |- context [add_phones rest organization_id ?c'] =>
      destruct (IH c') as (added & Hrun & Hnum & Hall); rewrite Hrun end.
    simpl. eexists (_ :: added). rewrite <- app_assoc. simpl.
    repeat split.
    + now rewrite Hnum.
    + constructor; [reflexivity | assumption].
Qed.

Lemma create_organization_run o db :
  exists added,
    request (create_organization o) db
    = (Return (new_organization db o),
       mkStore (buildings db) (activities db)
         (organizations db ++ [new_organization db o])
         (phones db ++ added)
         (organization_activity db
            ++ map (fun a => (Organization.id (new_organization db o),
                              Activity.id a))
                 (resolved db o)))
    /\ map Phone.number added = OrganizationCreate.phone_numbers o.
Proof.
  unfold request, create_organization, add_organization, set_activities,
    bind, query, update, commit, ret, open. simpl.
  match goal with |- context [add_phones ?ns ?k ?c'] =>
    destruct (add_phones_run ns k c') as (added & Hrun & Hnum & _);
    rewrite Hrun end.
  exists added. split; [| exact Hnum]. reflexivity.
Qed.

Lemma well_formed_create_organization o db :
  well_formed db -> well_formed (after (create_organization o) db).
Proof.
  intros Hwf. unfold after.
  destruct (create_organization_run o db) as (added & -> & _). simpl.
  destruct Hwf as [H1 H2 H3 H4 H5 H6 H7 H8].
  constructor; simpl; auto.
  - rewrite map_app. simpl. apply NoDup_snoc; [assumption | apply next_id_fresh].
  - intros l Hl. rewrite map_app. apply in_or_app.
    apply in_app_or in Hl. destruct Hl as [Hl | Hl].
    + left. now apply H8.
    + right. apply in_map_iff in Hl. destruct Hl as (a & <- & _).
      simpl. now left.
Qed.

Lemma reachable_well_formed db : reachable db -> well_formed db.
Proof.
  induction 1.
  - apply well_formed_empty.
  - now apply well_formed_create_building.
  - now apply well_formed_create_activity.
  - now apply well_formed_create_organization.
Qed.

Lemma reachable_seed_store : reachable seed_store.
Proof. unfold seed_store, seed_cars, seed_food, seed_buildings.
  repeat constructor. Qed.

(** Levels in the stores the create operations produce: an activity whose
    parent reference resolves to a parent has the parent's level plus 1
    (and a reference other than 0 does resolve), an activity without a
    parent reference (and one whose reference resolves to nothing) has
    level 0, and every activity has a level of at most 2. *)
Lemma reachable_activity_levels :
  forall db : Store,
    reachable db ->
    forall a, In a (activities db) ->
      (forall pa, parent db a = Some pa ->
                  Activity.level a = Activity.level pa + 1)
      /\ (forall p, Activity.parent_id a = Some p -> p <> 0 ->
                    exists pa, parent db a = Some pa
                               /\ Activity.level a = Activity.level pa + 1)
      /\ (Activity.parent_id a = None -> Activity.level a = 0)
      /\ (parent db a = None -> Activity.level a = 0)
      /\ Activity.level a <= 2.
Proof.
  intros db Hreach a Hin.
  pose proof (reachable_well_formed db Hreach) as Hwf.
  repeat split.
  - intros pa Hpa. now apply (wf_level_child db Hwf).
  - intros p Hp Hnz.
    destruct (wf_parent_resolves db Hwf a p Hin Hp Hnz) as [pa Hpa].
    assert (Hparent : parent db a = Some pa)
      by (unfold parent; now rewrite Hp).
    exists pa. split; [assumption |]. now apply (wf_level_child db Hwf).
  - intros Hnone. apply (wf_level_root db Hwf a Hin).
    unfold parent. now rewrite Hnone.
  - now apply (wf_level_root db Hwf).
  - apply (wf_level_range db Hwf a Hin).
Qed.

(** On the seeded rows: "Запчасти" (level 2) under "Легковые" (level 1). *)
Lemma reachable_activity_levels_witness :
  let parts := Activity.mk 6 (utf8 "Запчасти") (Some 5) 2 in
  (forall pa, parent seed_store parts = Some pa ->
              Activity.level parts = Activity.level pa + 1)
  /\ (forall p, Activity.parent_id parts = Some p -> p <> 0 ->
                exists pa, parent seed_store parts = Some pa
                           /\ Activity.level parts = Activity.level pa + 1)
  /\ (Activity.parent_id parts = None -> Activity.level parts = 0)
  /\ (parent seed_store parts = None -> Activity.level parts = 0)
  /\ Activity.level parts <= 2.
Proof.
  apply (reachable_activity_levels seed_store reachable_seed_store).
  vm_compute. tauto.
Defined.


(** C8: in a store that satisfies the invariant and for a request whose
    building is stored and whose texts every store takes,
    [create_organization] succeeds whatever activity ids it is given: the
    ids that resolve to no activity are dropped without an error, and the
    organization created is linked to exactly those of the given ids that
    resolve to an existing activity. *)
Theorem create_organization_links_resolved_ids :
  forall (db : Store) (o : OrganizationCreate.t),
    well_formed db ->
    In (OrganizationCreate.building_id o) (map Building.id (buildings db)) ->
    storable (OrganizationCreate.name o) ->
    Forall storable (OrganizationCreate.phone_numbers o) ->
    exists org db',
      request (create_organization o) db = (Return org, db')
      /\ In org (organizations db')
      /\ forall activity_id,
           In (Organization.id org, activity_id) (organization_activity db')
           <-> In activity_id (OrganizationCreate.activity_ids o)
               /\ exists act, find_activity db activity_id = Some act.
Proof.
  intros db o Hwf _ _ _.
  destruct (create_organization_run o db) as (added & Hrun & _).
  eexists. eexists. split; [exact Hrun |]. simpl. split.
  - apply in_or_app. right. now left.
  - intros k. rewrite in_app_iff. split.
    + intros [Hold | Hnew].
      * apply (wf_links db Hwf) in Hold. simpl in Hold.
        apply next_id_fresh in Hold. contradiction.
      * apply in_map_iff in Hnew. destruct Hnew as (a & Heq & Ha).
        injection Heq as <-. unfold resolved in Ha.
        apply filter_In in Ha. destruct Ha as [Ha Hmem].
        apply in_spec in Hmem. split; [assumption |].
        exists a. apply find_activity_in; [apply (wf_activity_keys db Hwf) | assumption].
    + intros (Hk & act & Hact). right.
      apply find_activity_some in Hact. destruct Hact as [Hin <-].
      apply in_map_iff. exists act. split; [reflexivity |].
      unfold resolved. apply filter_In. split; [assumption |].
      now apply in_spec.
Qed.

(** An organization of the seeded store given the ids 2 (stored) and 99
    (not stored) is created and linked to 2 only. *)
Lemma create_organization_links_resolved_ids_witness :
  exists org db',
    request (create_organization
               (OrganizationCreate.mk (utf8 "Acme") 1 [utf8 "123"] [2; 99]))
      seed_store = (Return org, db')
    /\ In org (organizations db')
    /\ forall activity_id,
         In (Organization.id org, activity_id) (organization_activity db')
         <-> In activity_id [2; 99]
             /\ exists act, find_activity seed_store activity_id = Some act.
Proof.
  apply (create_organization_links_resolved_ids seed_store
           (OrganizationCreate.mk (utf8 "Acme") 1 [utf8 "123"] [2; 99])).
  - apply reachable_well_formed. apply reachable_seed_store.
  - vm_compute. tauto.
  - vm_compute. intuition discriminate.
  - repeat constructor. vm_compute. intuition discriminate.
Defined.

Example create_organization_drops_unknown_ids :
  organization_activity
    (after (create_organization
              (OrganizationCreate.mk (utf8 "Acme") 1 [utf8 "123"] [2; 99]))
       seed_store)
  = [(1, 2); (1, 3); (2, 6); (3, 2)].
Proof. vm_compute. reflexivity. Qed.

(** C9: for an activity id that is not in the data state,
    [get_organizations_by_activity] returns the empty sequence and raises
    nothing, and the store is as before. *)
Theorem get_organizations_by_activity_unknown_id :
  forall (depth : nat) (db : Store) (activity_id : Z),
    find_activity db activity_id = None ->
    request (get_organizations_by_activity depth activity_id) db = (Return [], db).
Proof.
  intros depth db activity_id Hnone.
  unfold request, get_organizations_by_activity, bind, query, open. simpl.
  rewrite Hnone. reflexivity.
Qed.

Lemma get_organizations_by_activity_unknown_id_witness :
  request (get_organizations_by_activity 1000 7) seed_store
  = (Return [], seed_store).
Proof.
  apply (get_organizations_by_activity_unknown_id 1000 seed_store 7).
  vm_compute. reflexivity.
Defined.

(** ** Organizations by activity *)

Lemma is_child_of_spec act c :
  is_child_of act c = true <-> Activity.parent_id c = Some (Activity.id act).
Proof.
  unfold is_child_of. destruct (Activity.parent_id c) as [p |].
  - rewrite Z.eqb_eq. split; [now intros -> | congruence].
  - split; discriminate.
Qed.

Lemma descendant_cases s a d :
  descendant s a d
  <-> d = a \/ exists c, In c (activities s)
                         /\ Activity.parent_id c = Some (Activity.id a)
                         /\ descendant s c d.
Proof.
  split.
  - intros H. destruct H as [| a c d Hin Hp Hd]; [now left |].
    right. now exists c.
  - intros [-> | (c & Hin & Hp & Hd)].
    + constructor.
    + now apply descendant_child with (c := c).
Qed.

Lemma descendant_stored s a d :
  In a (activities s) -> descendant s a d -> In d (activities s).
Proof. intros Hin H. induction H; auto. Qed.

Section ExtendEach.

Context {A B : Type} (f : A -> Session (list B)) (P : A -> list B -> Prop).

Lemma extend_each_run c children :
  (forall x, In x children -> exists l, f x c = (Return l, c) /\ P x l) ->
  forall result, exists ls,
    extend_each f children result c = (Return (result ++ List.concat ls), c)
    /\ Forall2 P children ls.
Proof.
  induction children as [| child rest IH]; intros Hf result.
  - exists []. simpl. rewrite app_nil_r. split; [reflexivity | constructor].
  - destruct (Hf child (or_introl eq_refl)) as (l & Hl & HP).
    destruct (IH (fun x Hx => Hf x (or_intror Hx)) (result ++ l))
      as (ls & Hrun & Hall).
    exists (l :: ls). simpl. unfold bind. rewrite Hl, Hrun.
    rewrite <- app_assoc. split; [reflexivity | now constructor].
Qed.

End ExtendEach.

Lemma concat_descendants s children ls :
  Forall2 (fun x l => forall d, In d l <-> descendant s x d) children ls ->
  forall d, In d (List.concat ls) <-> exists x, In x children /\ descendant s x d.
Proof.
  induction 1 as [| x l children ls Hx _ IH]; intros d; simpl.
  - split; [tauto | intros (x & [] & _)].
  - rewrite in_app_iff, Hx, IH. split.
    + intros [Hd | (y & Hy & Hd)]; [exists x | exists y]; auto.
    + intros (y & [<- | Hy] & Hd); [now left | right; now exists y].
Qed.

(** In a well-formed store the recursion is at most three calls deep, so a
    recursion limit of three or more is never reached, and the rows
    collected are the activity and its descendants. *)
Lemma get_all_children_run depth :
  forall c act,
    well_formed (pending c) -> In act (activities (pending c)) ->
    3 - Activity.level act <= Z.of_nat depth ->
    exists l,
      get_all_children depth act c = (Return l, c)
      /\ forall d, In d l <-> descendant (pending c) act d.
Proof.
  induction depth as [| depth IH]; intros c act Hwf Hin Hdepth.
  - pose proof (wf_level_range _ Hwf act Hin). lia.
  - simpl. unfold bind at 1, query. simpl.
    destruct (extend_each_run (get_all_children depth)
                (fun x l => forall d, In d l <-> descendant (pending c) x d)
                c (filter (is_child_of act) (activities (pending c))))
      with (result := [act]) as (ls & Hrun & Hall).
    + intros x Hx. apply filter_In in Hx. destruct Hx as [Hx Hchild].
      apply is_child_of_spec in Hchild.
      apply IH; [assumption | assumption |].
      assert (Hlevel : Activity.level x = Activity.level act + 1).
      { apply (wf_level_child _ Hwf x act Hx). unfold parent. rewrite Hchild.
        apply find_activity_in; [apply (wf_activity_keys _ Hwf) | assumption]. }
      lia.
    + rewrite Hrun. eexists. split; [reflexivity |].
      intros d. rewrite descendant_cases. simpl.
      rewrite (concat_descendants _ _ _ Hall). split.
      * intros [<- | (x & Hx & Hd)]; [now left | right].
        apply filter_In in Hx. destruct Hx as [Hx Hchild].
        apply is_child_of_spec in Hchild. now exists x.
      * intros [-> | (x & Hx & Hp & Hd)]; [now left | right].
        exists x. split; [| assumption].
        apply filter_In. split; [assumption |]. now apply is_child_of_spec.
Qed.

Lemma in_join_links s o l :
  In (o, l) (join_links s)
  <-> In o (organizations s) /\ In l (organization_activity s)
      /\ fst l = Organization.id o.
Proof.
  unfold join_links. rewrite in_flat_map. split.
  - intros (o' & Ho' & Hin). apply in_map_iff in Hin.
    destruct Hin as (l' & Heq & Hl'). injection Heq as -> ->.
    apply filter_In in Hl'. destruct Hl' as [Hl' Hfst].
    apply Z.eqb_eq in Hfst. auto.
  - intros (Ho & Hl & Hfst). exists o. split; [assumption |].
    apply in_map. apply filter_In. split; [assumption |].
    now apply Z.eqb_eq.
Qed.

Lemma unique_sound rows : forall seen o,
  In o (unique seen rows) -> In o rows /\ ~ In (Organization.id o) seen.
Proof.
  induction rows as [| r rows IH]; intros seen o; simpl; [tauto |].
  destruct (in_ (Organization.id r) seen) eqn:Hseen.
  - intros H. apply IH in H. tauto.
  - intros [<- | H].
    + split; [now left |]. rewrite <- in_spec. congruence.
    + apply IH in H. simpl in H. tauto.
Qed.

Lemma unique_complete rows : forall seen o,
  (forall x y, In x rows -> In y rows ->
               Organization.id x = Organization.id y -> x = y) ->
  In o rows -> ~ In (Organization.id o) seen -> In o (unique seen rows).
Proof.
  induction rows as [| r rows IH]; intros seen o Hkey Hin Hseen; simpl;
    [contradiction |].
  destruct (in_ (Organization.id r) seen) eqn:Hr.
  - apply in_spec in Hr. destruct Hin as [-> | Hin]; [contradiction |].
    apply IH; auto. intros x y Hx Hy. apply Hkey; now right.
  - destruct Hin as [-> | Hin]; [now left |].
    destruct (Z.eq_dec (Organization.id o) (Organization.id r)) as [Heq | Hne].
    + left. symmetry. apply Hkey; [now right | now left | assumption].
    + right. apply IH; auto.
      * intros x y Hx Hy. apply Hkey; now right.
      * simpl. intros [Heq | Hs]; [congruence | contradiction].
Qed.

Lemma unique_NoDup rows : forall seen,
  NoDup (map Organization.id (unique seen rows)).
Proof.
  induction rows as [| r rows IH]; intros seen; simpl; [constructor |].
  destruct (in_ (Organization.id r) seen); [apply IH |].
  simpl. constructor; [| apply IH].
  intros Hin. apply in_map_iff in Hin. destruct Hin as (o & Heq & Ho).
  apply unique_sound in Ho. destruct Ho as [_ Hnot]. apply Hnot.
  left. now symmetry.
Qed.

Lemma same_key_same_row {A} (key : A -> Z) rows x y :
  NoDup (map key rows) -> In x rows -> In y rows -> key x = key y -> x = y.
Proof.
  intros Hnd Hx Hy Heq.
  pose proof (first_by_key key rows x Hnd Hx) as Fx.
  pose proof (first_by_key key rows y Hnd Hy) as Fy.
  rewrite Heq in Fx. congruence.
Qed.

Lemma organizations_linked_to_spec s activity_ids o :
  NoDup (map Organization.id (organizations s)) ->
  In o (organizations_linked_to activity_ids s)
  <-> In o (organizations s)
      /\ exists k, In k activity_ids
                   /\ In (Organization.id o, k) (organization_activity s).
Proof.
  intros Hnd. unfold organizations_linked_to.
  set (rows := map fst _).
  assert (Hrows : forall x, In x rows
            <-> In x (organizations s)
                /\ exists k, In k activity_ids
                     /\ In (Organization.id x, k) (organization_activity s)).
  { intros x. unfold rows. rewrite in_map_iff. split.
    - intros ([x' [i k]] & Heq & Hin). simpl in Heq. subst x'.
      apply filter_In in Hin. destruct Hin as [Hin Hmem].
      apply in_join_links in Hin. destruct Hin as (Hx & Hl & Hfst).
      simpl in *. subst i. apply in_spec in Hmem.
      split; [assumption |]. now exists k.
    - intros (Hx & k & Hk & Hl). exists (x, (Organization.id x, k)).
      split; [reflexivity |]. apply filter_In. split.
      + apply in_join_links. auto.
      + simpl. now apply in_spec. }
  rewrite <- Hrows. split.
  - intros H. now apply unique_sound in H.
  - intros H. apply unique_complete; [| assumption | simpl; tauto].
    intros x y Hx Hy. apply Hrows in Hx, Hy.
    apply (same_key_same_row Organization.id (organizations s)); tauto.
Qed.

(** C1: in every data state that satisfies the invariant of the data model
    (so in every state the create operations produce), and for every
    existing activity, the query returns (once the recursion limit is at
    least 3) exactly the organizations linked in [organization_activity] to
    that activity or to one of its descendants, each organization once. *)
Theorem get_organizations_by_activity_descendants :
  forall (db : Store) (activity_id : Z) (act : Activity.t) (depth : nat),
    well_formed db ->
    find_activity db activity_id = Some act ->
    (3 <= depth)%nat ->
    exists orgs,
      request (get_organizations_by_activity depth activity_id) db
      = (Return orgs, db)
      /\ (forall o,
            In o orgs
            <-> In o (organizations db)
                /\ exists d, descendant db act d
                     /\ In (Organization.id o, Activity.id d)
                          (organization_activity db))
      /\ NoDup (map Organization.id orgs).
Proof.
  intros db activity_id act depth Hwf Hfind Hdepth.
  pose proof (find_activity_some db activity_id act Hfind) as [Hin _].
  assert (Hlimit : 3 - Activity.level act <= Z.of_nat depth).
  { pose proof (wf_level_range db Hwf act Hin). lia. }
  destruct (get_all_children_run depth (open db) act Hwf Hin Hlimit)
    as (l & Hrun & Hl).
  unfold request, get_organizations_by_activity. unfold bind at 1, query at 1.
  simpl. rewrite Hfind. unfold bind, query. rewrite Hrun. simpl.
  eexists. split; [reflexivity |]. split.
  - intros o.
    rewrite (organizations_linked_to_spec db _ o (wf_organization_keys db Hwf)).
    split; intros (Ho & x & Hx); split; try assumption.
    + destruct Hx as (Hk & Hlink). apply in_map_iff in Hk.
      destruct Hk as (d & <- & Hd). exists d. split; [| assumption].
      now apply Hl.
    + destruct Hx as (Hd & Hlink). exists (Activity.id x).
      split; [| assumption]. apply in_map. now apply Hl.
  - apply unique_NoDup.
Qed.

Example organizations_under_food :
  fst (request (get_organizations_by_activity 1000 1) seed_store)
  = Return [Organization.mk 1 (utf8 "ООО Рога и Копыта") 1].
Proof. vm_compute. reflexivity. Qed.

Example organizations_under_cars :
  fst (request (get_organizations_by_activity 1000 4) seed_store)
  = Return [Organization.mk 2 (utf8 "Автосервис Скорость") 2].
Proof. vm_compute. reflexivity. Qed.

(** Outside the invariant the recursion need not end: on an activity that
    is its own parent every recursion limit is reached. *)
Remark get_all_children_cycle depth :
  get_all_children depth (Activity.mk 1 (utf8 "x") (Some 1) 0)
    (open cyclic_store)
  = (Raise RecursionError, open cyclic_store).
Proof.
  induction depth as [| depth IH]; [reflexivity |].
  simpl. unfold bind at 1, query. simpl. unfold bind. rewrite IH. reflexivity.
Qed.

(** On the seeded rows: "Еда" (id 1) has the children "Мясная продукция" and
    "Молочная продукция", to which the first organization is linked. *)
Lemma get_organizations_by_activity_descendants_witness :
  exists orgs,
    request (get_organizations_by_activity 1000 1) seed_store
    = (Return orgs, seed_store)
    /\ (forall o,
          In o orgs
          <-> In o (organizations seed_store)
              /\ exists d,
                   descendant seed_store
                     (Activity.mk 1 (utf8 "Еда") None 0) d
                   /\ In (Organization.id o, Activity.id d)
                        (organization_activity seed_store))
    /\ NoDup (map Organization.id orgs).
Proof.
  apply (get_organizations_by_activity_descendants seed_store 1
           (Activity.mk 1 (utf8 "Еда") None 0) 1000
           (reachable_well_formed seed_store reachable_seed_store)).
  - vm_compute. reflexivity.
  - lia.
Defined.

(** ** Comparisons of floats *)

Lemma SFcompare_antisym x y :
  SFcompare y x = option_map CompOpp (SFcompare x y).
Proof.
  destruct x as [sx | sx | | sx mx ex], y as [sy | sy | | sy my ey]; simpl;
    try reflexivity; try (destruct sx; reflexivity);
    try (destruct sy; reflexivity); try (destruct sx, sy; reflexivity).
  destruct sx, sy; simpl; try reflexivity;
    rewrite (Z.compare_antisym ex ey); destruct (ex ?= ey); simpl;
    try reflexivity;
    rewrite (Pos.compare_cont_antisym mx my Eq); reflexivity.
Qed.

Lemma float_eqb_leb x y : PrimFloat.eqb x y = true -> PrimFloat.leb x y = true.
Proof.
  rewrite eqb_spec, leb_spec. unfold SFeqb, SFleb.
  destruct (SFcompare (Prim2SF x) (Prim2SF y)) as [[| |] |];
    congruence.
Qed.

Lemma float_eqb_sym x y : PrimFloat.eqb x y = PrimFloat.eqb y x.
Proof.
  rewrite !eqb_spec. unfold SFeqb.
  rewrite (SFcompare_antisym (Prim2SF x) (Prim2SF y)).
  destruct (SFcompare (Prim2SF x) (Prim2SF y)) as [[| |] |]; reflexivity.
Qed.

Lemma float_ltb_not_leb x y : PrimFloat.ltb x y = true -> PrimFloat.leb y x = false.
Proof.
  rewrite ltb_spec, leb_spec. unfold SFltb, SFleb.
  rewrite (SFcompare_antisym (Prim2SF x) (Prim2SF y)).
  destruct (SFcompare (Prim2SF x) (Prim2SF y)) as [[| |] |]; simpl;
    congruence.
Qed.

Lemma float_leb_antisym x y :
  PrimFloat.leb x y = true /\ PrimFloat.leb y x = true
  <-> PrimFloat.eqb y x = true.
Proof.
  rewrite !leb_spec, eqb_spec. unfold SFleb, SFeqb.
  rewrite (SFcompare_antisym (Prim2SF x) (Prim2SF y)).
  destruct (SFcompare (Prim2SF x) (Prim2SF y)) as [[| |] |]; simpl;
    intuition congruence.
Qed.

(** Nothing that is at least zero is at most a negative number. *)
Lemma float_negative_below_nonnegative r d :
  PrimFloat.ltb r 0 = true -> PrimFloat.leb 0 d = true ->
  PrimFloat.leb d r = false.
Proof.
  rewrite ltb_spec, !leb_spec. unfold SFltb, SFleb.
  replace (Prim2SF 0) with (S754_zero false) by reflexivity.
  destruct (Prim2SF r) as [sr | sr | | sr mr er],
           (Prim2SF d) as [sd | sd | | sd md ed]; simpl;
    try discriminate; try (destruct sr; discriminate);
    try (destruct sd; discriminate);
    destruct sr, sd; simpl; congruence.
Qed.

(** ** The order of floats *)

Ltac compare_cases :=
  repeat match goal with
         | H : context [Z.compare ?a ?b] |- _ =>
             destruct (Z.compare_spec a b)
         | |- context [Z.compare ?a ?b] =>
             destruct (Z.compare_spec a b)
         | H : context [Pos.compare_cont Eq ?a ?b] |- _ =>
             change (Pos.compare_cont Eq a b) with (Pos.compare a b) in *;
             destruct (Pos.compare_spec a b)
         | |- context [Pos.compare_cont Eq ?a ?b] =>
             change (Pos.compare_cont Eq a b) with (Pos.compare a b) in *;
             destruct (Pos.compare_spec a b)
         end;
  simpl in *; try discriminate; try reflexivity; try lia.

Lemma SFleb_trans x y z :
  SFleb x y = true -> SFleb y z = true -> SFleb x z = true.
Proof.
  unfold SFleb.
  destruct x as [sx | sx | | sx mx ex], y as [sy | sy | | sy my ey],
           z as [sz | sz | | sz mz ez]; simpl;
    try discriminate; try reflexivity;
    try (destruct sx; simpl; try discriminate; try reflexivity);
    try (destruct sy; simpl; try discriminate; try reflexivity);
    try (destruct sz; simpl; try discriminate; try reflexivity);
    intros H1 H2; compare_cases.
Qed.

Lemma float_leb_trans x y z :
  PrimFloat.leb x y = true -> PrimFloat.leb y z = true ->
  PrimFloat.leb x z = true.
Proof. rewrite !leb_spec. apply SFleb_trans. Qed.

Lemma SFcompare_refl s : s <> S754_nan -> SFcompare s s = Some Eq.
Proof.
  destruct s as [b | b | | b m e]; simpl; try congruence;
    try (destruct b; reflexivity).
  intros _. rewrite Z.compare_refl.
  change (Pos.compare_cont Eq m m) with (Pos.compare m m).
  rewrite Pos.compare_refl. destruct b; reflexivity.
Qed.

Lemma is_nan_spec a : is_nan a -> Prim2SF a = S754_nan.
Proof.
  unfold is_nan. rewrite eqb_spec. unfold SFeqb. intros H.
  destruct (Prim2SF a) as [b | b | | b m e] eqn:E; try reflexivity;
    rewrite SFcompare_refl in H; discriminate.
Qed.

Lemma float_leb_nan_r d r : is_nan r -> PrimFloat.leb d r = false.
Proof.
  intros H. rewrite leb_spec, (is_nan_spec r H). unfold SFleb.
  destruct (Prim2SF d); reflexivity.
Qed.

(** ** Organizations by position *)

Lemma no_member_nil {A} (l : list A) : (forall x, ~ In x l) -> l = [].
Proof.
  destruct l as [| x l]; [reflexivity |].
  intros H. exfalso. apply (H x). now left.
Qed.

Lemma housed_in_spec (ids : list Z) (orgs : list Organization.t) o :
  In o (filter (fun o => in_ (Organization.building_id o) ids) orgs)
  <-> In o orgs /\ In (Organization.building_id o) ids.
Proof. rewrite filter_In, in_spec. reflexivity. Qed.

Section Radius.

Variable geodesic_km : point -> point -> outcome float.
Variables (target : point) (radius_km : float).

Lemma kept_spec b :
  kept geodesic_km target radius_km b = true
  <-> exists km,
        geodesic_km target (Building.latitude b, Building.longitude b)
        = Return km
        /\ PrimFloat.leb km radius_km = true.
Proof.
  unfold kept.
  destruct (geodesic_km target (Building.latitude b, Building.longitude b))
    as [km | e].
  - split; [intros H; now exists km | intros (km' & H & Hle); congruence].
  - split; [discriminate | intros (km' & H & _); discriminate].
Qed.

(** When the loop returns, it has kept the buildings within the radius and
    left the session as it was. *)
Lemma within_radius_returns bs :
  forall acc c ids c',
    within_radius geodesic_km target radius_km bs acc c = (Return ids, c') ->
    c' = c
    /\ forall k,
         In k ids
         <-> In k acc
             \/ exists b, In b bs /\ Building.id b = k
                  /\ kept geodesic_km target radius_km b = true.
Proof.
  induction bs as [| b0 rest IH]; intros acc c ids c' Hrun; simpl in Hrun.
  - unfold ret in Hrun. injection Hrun as <- <-. split; [reflexivity |].
    intros k. split; [now left | intros [H | (b & [] & _)]; exact H].
  - unfold bind at 1, call in Hrun.
    destruct (geodesic_km target (Building.latitude b0, Building.longitude b0))
      as [km | e] eqn:Hkm; [| discriminate].
    apply IH in Hrun. destruct Hrun as [-> Hids]. split; [reflexivity |].
    assert (Hb0 : kept geodesic_km target radius_km b0
                  = PrimFloat.leb km radius_km)
      by (unfold kept; now rewrite Hkm).
    intros k. rewrite Hids, <- Hb0. clear Hb0.
    destruct (kept geodesic_km target radius_km b0) eqn:Hle.
    + rewrite in_app_iff. cbn [In]. split.
      * intros [[H | [Hk | []]] | (b & Hb & Hk & Hd)].
        -- now left.
        -- right. exists b0. split; [now left |]. now split.
        -- right. exists b. split; [now right |]. now split.
      * intros [H | (b & [Hb | Hb] & Hk & Hd)].
        -- left. now left.
        -- subst b. left. right. now left.
        -- right. now exists b.
    + split.
      * intros [H | (b & Hb & Hk & Hd)]; [now left |].
        right. exists b. split; [now right |]. now split.
      * intros [H | (b & [Hb | Hb] & Hk & Hd)].
        -- now left.
        -- subst b. congruence.
        -- right. now exists b.
Qed.

(** The loop returns when the library computes every distance. *)
Lemma within_radius_located bs :
  located geodesic_km target bs ->
  forall acc c, exists ids,
    within_radius geodesic_km target radius_km bs acc c = (Return ids, c).
Proof.
  induction bs as [| b0 rest IH]; intros Hloc acc c; simpl.
  - now exists acc.
  - destruct (Hloc b0 (or_introl eq_refl)) as [km Hkm].
    unfold bind at 1, call. rewrite Hkm.
    apply IH. intros b Hb. apply Hloc. now right.
Qed.

End Radius.

Lemma get_organizations_by_radius_returns geodesic_km db lat lon radius_km
  orgs db' :
  request (get_organizations_by_radius geodesic_km lat lon radius_km) db
  = (Return orgs, db') ->
  db' = db
  /\ forall o,
       In o orgs
       <-> In o (organizations db)
           /\ exists b, In b (buildings db)
                /\ Building.id b = Organization.building_id o
                /\ kept geodesic_km (lat, lon) radius_km b = true.
Proof.
  unfold request, get_organizations_by_radius.
  unfold bind at 1, query at 1. cbn [pending open]. unfold bind, query.
  destruct (within_radius geodesic_km (lat, lon) radius_km (buildings db) []
              (open db)) as [[ids | e] c] eqn:Hloop;
    intros H; [| discriminate H].
  apply within_radius_returns in Hloop. destruct Hloop as [-> Hids].
  cbn [pending persisted open] in H. injection H as <- <-.
  split; [reflexivity |]. intros o. rewrite housed_in_spec, Hids.
  cbn [In]. tauto.
Qed.

Lemma get_organizations_by_radius_located geodesic_km db lat lon radius_km :
  located geodesic_km (lat, lon) (buildings db) ->
  exists orgs,
    request (get_organizations_by_radius geodesic_km lat lon radius_km) db
    = (Return orgs, db).
Proof.
  intros Hloc. unfold request, get_organizations_by_radius.
  unfold bind at 1, query at 1. cbn [pending open]. unfold bind, query.
  destruct (within_radius_located geodesic_km (lat, lon) radius_km
              (buildings db) Hloc [] (open db)) as [ids Hids].
  rewrite Hids. cbn [pending persisted]. eexists. reflexivity.
Qed.

(** C5: where the geodesic library computes the distance of every building
    (coordinates in range) and the distances are at least zero, the radius
    search returns exactly the organizations housed in a building whose
    distance from the point is at most the radius.  The bound is inclusive:
    a building exactly at the radius counts, one farther away does not.
    With a negative radius the result is empty. *)
Theorem get_organizations_by_radius_inclusive :
  forall (geodesic_km : point -> point -> outcome float) (db : Store)
         (lat lon radius_km : float),
    let distance b :=
      geodesic_km (lat, lon) (Building.latitude b, Building.longitude b) in
    (forall b, In b (buildings db) ->
       exists km, distance b = Return km /\ PrimFloat.leb 0 km = true) ->
    exists orgs,
      request (get_organizations_by_radius geodesic_km lat lon radius_km) db
      = (Return orgs, db)
      /\ (forall o,
            In o orgs
            <-> In o (organizations db)
                /\ exists b km, In b (buildings db)
                     /\ Building.id b = Organization.building_id o
                     /\ distance b = Return km
                     /\ PrimFloat.leb km radius_km = true)
      /\ (forall o b km,
            In o (organizations db) -> In b (buildings db) ->
            Building.id b = Organization.building_id o ->
            distance b = Return km ->
            same_float km radius_km -> In o orgs)
      /\ (forall o,
            (forall b km, In b (buildings db) ->
                          Building.id b = Organization.building_id o ->
                          distance b = Return km ->
                          PrimFloat.ltb radius_km km = true) ->
            ~ In o orgs)
      /\ (PrimFloat.ltb radius_km 0 = true -> orgs = []).
Proof.
  intros geodesic_km db lat lon radius_km distance Hdist.
  assert (Hloc : located geodesic_km (lat, lon) (buildings db)).
  { intros b Hb. destruct (Hdist b Hb) as (km & Hkm & _). now exists km. }
  destruct (get_organizations_by_radius_located geodesic_km db lat lon
              radius_km Hloc) as [orgs Hrun].
  exists orgs. split; [exact Hrun |].
  apply get_organizations_by_radius_returns in Hrun.
  destruct Hrun as [_ Hkept].
  assert (Hspec : forall o,
            In o orgs
            <-> In o (organizations db)
                /\ exists b km, In b (buildings db)
                     /\ Building.id b = Organization.building_id o
                     /\ distance b = Return km
                     /\ PrimFloat.leb km radius_km = true).
  { intros o. rewrite Hkept. split.
    - intros (Ho & b & Hb & Hid & Hk). apply kept_spec in Hk.
      destruct Hk as (km & Hkm & Hle). split; [assumption |].
      now exists b, km.
    - intros (Ho & b & km & Hb & Hid & Hkm & Hle). split; [assumption |].
      exists b. repeat split; try assumption. apply kept_spec. now exists km. }
  split; [exact Hspec |]. split; [| split].
  - intros o b km Ho Hb Hid Hkm Hsame. apply Hspec. split; [assumption |].
    exists b, km. repeat split; auto. now apply float_eqb_leb.
  - intros o Hfar Hin. apply Hspec in Hin.
    destruct Hin as (_ & b & km & Hb & Hid & Hkm & Hle).
    specialize (Hfar b km Hb Hid Hkm). apply float_ltb_not_leb in Hfar.
    congruence.
  - intros Hneg. apply no_member_nil. intros o Hin. apply Hspec in Hin.
    destruct Hin as (_ & b & km & Hb & _ & Hkm & Hle).
    destruct (Hdist b Hb) as (km' & Hkm' & Hpos).
    assert (km' = km) by congruence. subst km'.
    rewrite (float_negative_below_nonnegative radius_km km Hneg Hpos) in Hle.
    discriminate.
Qed.

(** One degree around the first seeded building, with the stand-in distance. *)
Lemma get_organizations_by_radius_inclusive_witness :
  exists orgs,
    request (get_organizations_by_radius degrees_apart
               55.7558%float 37.6176%float 1%float) seed_store
    = (Return orgs, seed_store)
    /\ (PrimFloat.ltb 1 0 = true -> orgs = []).
Proof.
  destruct (get_organizations_by_radius_inclusive degrees_apart seed_store
              55.7558%float 37.6176%float 1%float)
    as (orgs & Hrun & _ & _ & _ & Hneg).
  - intros b Hb. vm_compute in Hb.
    destruct Hb as [<- | [<- | []]]; eexists; split; vm_compute; reflexivity.
  - exists orgs. split; [exact Hrun | exact Hneg].
Defined.

Example radius_one_degree :
  fst (request (get_organizations_by_radius degrees_apart
                  55.7558%float 37.6176%float 1%float) seed_store)
  = Return [Organization.mk 1 (utf8 "ООО Рога и Копыта") 1].
Proof. vm_compute. reflexivity. Qed.

(** The stand-in refuses a latitude of 100 degrees, as the library does, and
    the search then raises instead of returning. *)
Example radius_latitude_out_of_range :
  fst (request (get_organizations_by_radius degrees_apart
                  100%float 37.6176%float 1%float) seed_store)
  = Raise (ValueError "Latitude must be in the [-90; 90] range.").
Proof. vm_compute. reflexivity. Qed.

Lemma in_bbox_spec min_lat max_lat min_lon max_lon b :
  in_bbox min_lat max_lat min_lon max_lon b = true
  <-> PrimFloat.leb min_lat (Building.latitude b) = true
      /\ PrimFloat.leb (Building.latitude b) max_lat = true
      /\ PrimFloat.leb min_lon (Building.longitude b) = true
      /\ PrimFloat.leb (Building.longitude b) max_lon = true.
Proof. unfold in_bbox. rewrite !andb_true_iff. tauto. Qed.

Lemma get_organizations_by_bbox_run db min_lat max_lat min_lon max_lon :
  exists orgs,
    request (get_organizations_by_bbox min_lat max_lat min_lon max_lon) db
    = (Return orgs, db)
    /\ forall o,
         In o orgs
         <-> In o (organizations db)
             /\ exists b, In b (buildings db)
                  /\ Building.id b = Organization.building_id o
                  /\ in_bbox min_lat max_lat min_lon max_lon b = true.
Proof.
  eexists. split; [destruct db; reflexivity |].
  intros o. destruct db as [bs acts orgs ps links]. simpl.
  rewrite housed_in_spec, in_map_iff.
  split; intros (Ho & b & H); split; try assumption; exists b.
  - destruct H as (Hid & Hb). apply filter_In in Hb. tauto.
  - destruct H as (Hb & Hid & Hbox). split; [assumption |].
    apply filter_In. auto.
Qed.

(** C6: for bounds that are numbers, the bounding-box search returns
    exactly the organizations whose building has
    min_lat <= latitude <= max_lat and min_lon <= longitude <= max_lon, both
    ends included; and when min_lat = max_lat and min_lon = max_lon,
    exactly the organizations of the buildings at that very coordinate. *)
Theorem get_organizations_by_bbox_inclusive :
  forall (db : Store) (min_lat max_lat min_lon max_lon : float),
    is_number min_lat -> is_number max_lat ->
    is_number min_lon -> is_number max_lon ->
    exists orgs,
      request (get_organizations_by_bbox min_lat max_lat min_lon max_lon) db
      = (Return orgs, db)
      /\ (forall o,
            In o orgs
            <-> In o (organizations db)
                /\ exists b, In b (buildings db)
                     /\ Building.id b = Organization.building_id o
                     /\ PrimFloat.leb min_lat (Building.latitude b) = true
                     /\ PrimFloat.leb (Building.latitude b) max_lat = true
                     /\ PrimFloat.leb min_lon (Building.longitude b) = true
                     /\ PrimFloat.leb (Building.longitude b) max_lon = true)
      /\ (same_float max_lat min_lat -> same_float max_lon min_lon ->
          forall o,
            In o orgs
            <-> In o (organizations db)
                /\ exists b, In b (buildings db)
                     /\ Building.id b = Organization.building_id o
                     /\ same_float (Building.latitude b) min_lat
                     /\ same_float (Building.longitude b) min_lon).
Proof.
  intros db min_lat max_lat min_lon max_lon _ _ _ _.
  destruct (get_organizations_by_bbox_run db min_lat max_lat min_lon max_lon)
    as (orgs & Hrun & Hspec).
  exists orgs. split; [exact Hrun |]. split.
  - intros o. rewrite Hspec.
    split; intros (Ho & b & Hb & Hid & Hbox); split; try assumption;
      exists b; split; try assumption; split; try assumption;
      now apply in_bbox_spec.
  - unfold same_float. intros Hlat Hlon o. rewrite Hspec.
    apply float_leb_antisym in Hlat, Hlon.
    destruct Hlat as [Hlat1 Hlat2]. destruct Hlon as [Hlon1 Hlon2].
    split; intros (Ho & b & Hb & Hid & Hbox); split; try assumption;
      exists b; split; try assumption; split; try assumption.
    + apply in_bbox_spec in Hbox. destruct Hbox as (H1 & H2 & H3 & H4).
      split; apply float_leb_antisym; split; try assumption.
      * now apply float_leb_trans with (y := max_lat).
      * now apply float_leb_trans with (y := max_lon).
    + destruct Hbox as [Blat Blon].
      apply float_leb_antisym in Blat, Blon.
      destruct Blat as [Blat1 Blat2]. destruct Blon as [Blon1 Blon2].
      apply in_bbox_spec. repeat split; try assumption.
      * now apply float_leb_trans with (y := min_lat).
      * now apply float_leb_trans with (y := min_lon).
Qed.

Lemma get_organizations_by_bbox_inclusive_witness :
  exists orgs,
    request (get_organizations_by_bbox 55%float 56%float 37%float 38%float)
      seed_store = (Return orgs, seed_store)
    /\ (forall o,
          In o orgs
          <-> In o (organizations seed_store)
              /\ exists b, In b (buildings seed_store)
                   /\ Building.id b = Organization.building_id o
                   /\ PrimFloat.leb 55 (Building.latitude b) = true
                   /\ PrimFloat.leb (Building.latitude b) 56 = true
                   /\ PrimFloat.leb 37 (Building.longitude b) = true
                   /\ PrimFloat.leb (Building.longitude b) 38 = true)
    /\ (same_float 56 55 -> same_float 38 37 ->
        forall o,
          In o orgs
          <-> In o (organizations seed_store)
              /\ exists b, In b (buildings seed_store)
                   /\ Building.id b = Organization.building_id o
                   /\ same_float (Building.latitude b) 55
                   /\ same_float (Building.longitude b) 37).
Proof.
  apply (get_organizations_by_bbox_inclusive seed_store
           55%float 56%float 37%float 38%float);
    vm_compute; reflexivity.
Defined.

Example bbox_around_moscow :
  fst (request (get_organizations_by_bbox 55%float 56%float 37%float 38%float)
         seed_store)
  = Return [Organization.mk 1 (utf8 "ООО Рога и Копыта") 1].
Proof. vm_compute. reflexivity. Qed.

Example bbox_exact_coordinate :
  fst (request (get_organizations_by_bbox 59.9343%float 59.9343%float
                  30.3351%float 30.3351%float) seed_store)
  = Return [Organization.mk 2 (utf8 "Автосервис Скорость") 2].
Proof. vm_compute. reflexivity. Qed.

(** ** Organizations by name *)

Lemma like_percent_unfold p t :
  like (percent :: p) t
  = like p t || match t with [] => false | _ :: t' => like (percent :: p) t' end.
Proof. destruct t; reflexivity. Qed.

Lemma like_percent p t :
  like (percent :: p) t = true
  <-> exists pre t', t = pre ++ t' /\ like p t' = true.
Proof.
  induction t as [| c t IH]; rewrite like_percent_unfold, orb_true_iff.
  - split.
    + intros [H | H]; [| discriminate]. now exists [], [].
    + intros (pre & t' & Heq & H). left.
      symmetry in Heq. apply app_eq_nil in Heq. destruct Heq as [_ ->].
      exact H.
  - rewrite IH. split.
    + intros [H | (pre & t' & -> & H)].
      * now exists [], (c :: t).
      * now exists (c :: pre), t'.
    + intros (pre & t' & Heq & H). destruct pre as [| x pre]; simpl in Heq.
      * left. now subst t'.
      * right. injection Heq as _ ->. now exists pre, t'.
Qed.

Lemma like_any t : like [percent] t = true.
Proof. apply like_percent. exists t, []. now rewrite app_nil_r. Qed.

Lemma like_literal c p t :
  c <> percent -> c <> underscore ->
  like (c :: p) t
  = match t with [] => false | x :: t' => (c =? x)%N && like p t' end.
Proof.
  intros Hp Hu. simpl.
  apply N.eqb_neq in Hp, Hu. rewrite Hp, Hu. reflexivity.
Qed.

Lemma like_prefix s : wildcard_free s ->
  forall t, like (s ++ [percent]) t = true <-> exists post, t = s ++ post.
Proof.
  induction s as [| c s IH]; intros [Hp Hu] t.
  - simpl app. split; [intros _; now exists t | intros _; apply like_any].
  - assert (Hs : wildcard_free s) by (split; intros H; [apply Hp | apply Hu]; now right).
    assert (Hcp : c <> percent) by (intros ->; apply Hp; now left).
    assert (Hcu : c <> underscore) by (intros ->; apply Hu; now left).
    change ((c :: s) ++ [percent]) with (c :: (s ++ [percent])).
    rewrite (like_literal c _ t Hcp Hcu). destruct t as [| x t].
    + split; [discriminate | intros (post & H); discriminate].
    + rewrite andb_true_iff, N.eqb_eq, (IH Hs). split.
      * intros (-> & post & ->). now exists post.
      * intros (post & H). injection H as -> ->. split; [reflexivity |].
        now exists post.
Qed.

(** A pattern [%s%] whose [s] has no wildcard matches the texts in which
    [s] occurs. *)
Lemma like_contains s t :
  wildcard_free s ->
  like ([percent] ++ s ++ [percent]) t = true <-> substring s t.
Proof.
  intros Hs. simpl app. rewrite like_percent. unfold substring. split.
  - intros (pre & t' & -> & H). apply (like_prefix s Hs) in H.
    destruct H as (post & ->). now exists pre, post.
  - intros (pre & post & ->). exists pre, (s ++ post). split; [reflexivity |].
    apply (like_prefix s Hs). now exists post.
Qed.

Lemma between_spec lo hi c : between lo hi c = true <-> (lo <= c <= hi)%N.
Proof. unfold between. rewrite andb_true_iff, !N.leb_le. reflexivity. Qed.

(** Case folding maps nothing else onto a character outside the letters. *)
Lemma lower_fixes c w :
  (w < 65)%N \/ (90 < w < 97)%N -> lower c = w <-> c = w.
Proof.
  intros Hw. unfold lower.
  destruct (between 65 90 c) eqn:B1;
    [apply between_spec in B1; split; lia |].
  destruct (between 192 222 c && negb (c =? 215)%N) eqn:B2;
    [apply andb_prop in B2; destruct B2 as [B2 _];
     apply between_spec in B2; split; lia |].
  destruct (between 913 937 c && negb (c =? 930)%N) eqn:B3;
    [apply andb_prop in B3; destruct B3 as [B3 _];
     apply between_spec in B3; split; lia |].
  destruct (between 1024 1039 c) eqn:B4;
    [apply between_spec in B4; split; lia |].
  destruct (between 1040 1071 c) eqn:B5;
    [apply between_spec in B5; split; lia |].
  reflexivity.
Qed.

Lemma lower_wildcard_free s : wildcard_free s -> wildcard_free (map lower s).
Proof.
  unfold wildcard_free, percent, underscore.
  intros [Hp Hu]. split; intros H; apply in_map_iff in H;
    destruct H as (c & Hc & Hin).
  - apply (lower_fixes c 37) in Hc; [congruence | lia].
  - apply (lower_fixes c 95) in Hc; [congruence | lia].
Qed.

Lemma lower_wildcards name :
  map lower ([percent] ++ name ++ [percent])
  = [percent] ++ map lower name ++ [percent].
Proof. now rewrite !map_app. Qed.

(** For a search string without [%] and [_] the search by name is the
    case-insensitive substring search of the specification. *)
Lemma get_organizations_by_name_wildcard_free db name :
  wildcard_free name ->
  exists orgs,
    request (get_organizations_by_name name) db = (Return orgs, db)
    /\ forall o,
         In o orgs
         <-> In o (organizations db)
             /\ substring (map lower name) (map lower (Organization.name o)).
Proof.
  intros Hfree.
  exists (filter (fun o => ilike (Organization.name o)
                          ([percent] ++ name ++ [percent]))
            (organizations db)).
  split; [destruct db; reflexivity |].
  intros o. rewrite filter_In. unfold ilike. rewrite lower_wildcards.
  rewrite (like_contains _ _ (lower_wildcard_free name Hfree)). reflexivity.
Qed.

(** The empty search string matches every organization. *)
Lemma get_organizations_by_name_empty db :
  request (get_organizations_by_name []) db = (Return (organizations db), db).
Proof.
  destruct db as [bs acts orgs ps links].
  unfold request, get_organizations_by_name, query, open. simpl.
  f_equal. f_equal. induction orgs as [| o orgs IH]; simpl; [reflexivity |].
  unfold ilike at 1. simpl map.
  replace (like _ _) with true; [now rewrite IH |].
  symmetry. apply (like_contains [] (map lower (Organization.name o))).
  - split; intros [].
  - now exists [], (map lower (Organization.name o)).
Qed.

Example search_roga :
  fst (request (get_organizations_by_name (utf8 "рога")) seed_store)
  = Return [Organization.mk 1 (utf8 "ООО Рога и Копыта") 1].
Proof. vm_compute. reflexivity. Qed.

Lemma occurs_in c t : substring [c] t -> existsb (N.eqb c) t = true.
Proof.
  intros (pre & post & ->). apply existsb_exists. exists c.
  split; [| apply N.eqb_refl]. apply in_or_app. right. now left.
Qed.

(** C7, at a search string with a LIKE wildcard: the string is put into the
    pattern as it is, so ["_"] stands for any one character and the search
    returns both seeded organizations, although the name of neither
    contains an underscore. *)
Theorem get_organizations_by_name_underscore :
  request (get_organizations_by_name (utf8 "_")) seed_store
  = (Return (organizations seed_store), seed_store)
  /\ forall o, In o (organizations seed_store) ->
       ~ substring (map lower (utf8 "_")) (map lower (Organization.name o)).
Proof.
  split; [vm_compute; reflexivity |].
  assert (Hnone : forallb
                    (fun o => negb (existsb (N.eqb underscore)
                                      (map lower (Organization.name o))))
                    (organizations seed_store) = true)
    by (vm_compute; reflexivity).
  intros o Ho Hsub. rewrite forallb_forall in Hnone.
  specialize (Hnone o Ho). apply negb_true_iff in Hnone.
  change (map lower (utf8 "_")) with [underscore] in Hsub.
  apply occurs_in in Hsub. rewrite Hsub in Hnone. discriminate Hnone.
Qed.


(** * Further properties of the catalog *)

(** ** Created rows can be looked up *)

Lemma first_fresh {A} (key : A -> Z) (rows : list A) (k : Z) :
  ~ In k (map key rows) -> first (fun x => key x =? k) rows = None.
Proof.
  unfold first. induction rows as [| x rows IH]; simpl; [reflexivity |].
  intros Hk. destruct (Z.eqb_spec (key x) k) as [Heq | _]; [tauto |].
  apply IH. tauto.
Qed.

Lemma first_snoc_other {A} (key : A -> Z) (rows : list A) (row : A) (k : Z) :
  k <> key row ->
  first (fun x => key x =? k) (rows ++ [row]) = first (fun x => key x =? k) rows.
Proof.
  intros Hk. rewrite first_app. destruct (first _ rows); [reflexivity |].
  unfold first. simpl.
  destruct (Z.eqb_spec (key row) k) as [Heq | _]; [congruence | reflexivity].
Qed.

Lemma first_snoc_fresh {A} (key : A -> Z) (rows : list A) (row : A) :
  ~ In (key row) (map key rows) ->
  first (fun x => key x =? key row) (rows ++ [row]) = Some row.
Proof.
  intros Hk. rewrite first_app, (first_fresh key rows _ Hk).
  unfold first. simpl. now rewrite Z.eqb_refl.
Qed.

(** X1: when [create_building] returns, the building it returns carries
    the data of the request and a key no stored building had, the store
    has that one row more, looking the key up with [get_building] gives
    the building back, and the lookup of every other key answers as it did
    before. *)
Theorem create_building_then_get_building :
  forall (db : Store) (b : BuildingCreate.t) (row : Building.t) (db' : Store),
    request (create_building b) db = (Return row, db') ->
    Building.address row = BuildingCreate.address b
    /\ Building.latitude row = BuildingCreate.latitude b
    /\ Building.longitude row = BuildingCreate.longitude b
    /\ ~ In (Building.id row) (map Building.id (buildings db))
    /\ db' = with_building db row
    /\ request (get_building (Building.id row)) db' = (Return (Some row), db')
    /\ forall k, k <> Building.id row ->
         fst (request (get_building k) db')
         = fst (request (get_building k) db).
Proof.
  intros db b row db' Hrun. rewrite create_building_run in Hrun.
  cbv zeta in Hrun. injection Hrun as <- <-.
  set (row := Building.mk (next_id (map Building.id (buildings db)))
                (BuildingCreate.address b) (BuildingCreate.latitude b)
                (BuildingCreate.longitude b)).
  assert (Hfresh : ~ In (Building.id row) (map Building.id (buildings db)))
    by apply next_id_fresh.
  split; [reflexivity |]. split; [reflexivity |]. split; [reflexivity |].
  split; [assumption |]. split; [reflexivity |]. clearbody row.
  unfold request, get_building, query, open, with_building.
  cbn [pending persisted buildings fst snd]. split.
  - now rewrite (first_snoc_fresh Building.id).
  - intros k Hk. now rewrite (first_snoc_other Building.id).
Qed.

Lemma create_building_then_get_building_witness :
  let b := BuildingCreate.mk (utf8 "X") 55.75%float 37.61%float in
  let row := Building.mk 1 (utf8 "X") 55.75%float 37.61%float in
  let db' := with_building empty_store row in
  Building.address row = BuildingCreate.address b
  /\ Building.latitude row = BuildingCreate.latitude b
  /\ Building.longitude row = BuildingCreate.longitude b
  /\ ~ In (Building.id row) (map Building.id (buildings empty_store))
  /\ db' = with_building empty_store row
  /\ request (get_building (Building.id row)) db' = (Return (Some row), db')
  /\ forall k, k <> Building.id row ->
       fst (request (get_building k) db')
       = fst (request (get_building k) empty_store).
Proof.
  intros b row db'.
  apply (create_building_then_get_building empty_store b row db').
  reflexivity.
Defined.

(** X2: when [create_organization] returns, the organization it returns
    carries the name and building id of the request and a key no stored
    organization had, [get_organization] on that key gives it back, and
    the lookup of every other key answers as it did before. *)
Theorem create_organization_then_get_organization :
  forall (db : Store) (o : OrganizationCreate.t) (org : Organization.t)
         (db' : Store),
    request (create_organization o) db = (Return org, db') ->
    Organization.name org = OrganizationCreate.name o
    /\ Organization.building_id org = OrganizationCreate.building_id o
    /\ ~ In (Organization.id org) (map Organization.id (organizations db))
    /\ request (get_organization (Organization.id org)) db'
       = (Return (Some org), db')
    /\ forall k, k <> Organization.id org ->
         fst (request (get_organization k) db')
         = fst (request (get_organization k) db).
Proof.
  intros db o org db' Hreturns.
  destruct (create_organization_run o db) as (added & Hrun & _).
  rewrite Hrun in Hreturns. injection Hreturns as <- <-.
  assert (Hfresh : ~ In (Organization.id (new_organization db o))
                     (map Organization.id (organizations db)))
    by apply next_id_fresh.
  split; [reflexivity |]. split; [reflexivity |]. split; [assumption |].
  generalize dependent (new_organization db o). intros org _ Hfresh.
  unfold request, get_organization, query, open.
  cbn [pending persisted organizations fst snd]. split.
  - now rewrite (first_snoc_fresh Organization.id).
  - intros k Hk. now rewrite (first_snoc_other Organization.id).
Qed.

Lemma create_organization_then_get_organization_witness :
  let o := OrganizationCreate.mk (utf8 "Acme") 1 [] [] in
  let org := Organization.mk 1 (utf8 "Acme") 1 in
  let db := with_building empty_store
              (Building.mk 1 (utf8 "X") 55.75%float 37.61%float) in
  let db' := mkStore (buildings db) [] [org] [] [] in
  Organization.name org = OrganizationCreate.name o
  /\ Organization.building_id org = OrganizationCreate.building_id o
  /\ ~ In (Organization.id org) (map Organization.id (organizations db))
  /\ request (get_organization (Organization.id org)) db'
     = (Return (Some org), db')
  /\ forall k, k <> Organization.id org ->
       fst (request (get_organization k) db')
       = fst (request (get_organization k) db).
Proof.
  intros o org db db'.
  apply (create_organization_then_get_organization db o org db').
  reflexivity.
Defined.

(** ** Pages of buildings *)

Lemma get_buildings_run db skip limit :
  request (get_buildings skip limit) db
  = (Return (firstn (Z.to_nat limit) (skipn (Z.to_nat skip) (buildings db))), db).
Proof. destruct db; reflexivity. Qed. 

(** X3: for a skip and a limit that are not negative, [get_buildings]
    returns the stored buildings from position skip on, in stored order,
    limit of them or as many as are left: none when skip is past the end,
    all of them when skip is 0 and limit is at least their number. *)
Theorem get_buildings_page :
  forall (db : Store) (skip limit : Z),
    0 <= skip -> 0 <= limit ->
    exists page,
      request (get_buildings skip limit) db = (Return page, db)
      /\ (exists before rest,
            buildings db = before ++ page ++ rest
            /\ Z.of_nat (List.length before)
               = Z.min skip (Z.of_nat (List.length (buildings db)))
            /\ (rest <> [] -> Z.of_nat (List.length page) = limit))
      /\ Z.of_nat (List.length page)
         = Z.min limit (Z.max 0 (Z.of_nat (List.length (buildings db)) - skip))
      /\ (Z.of_nat (List.length (buildings db)) <= skip -> page = [])
      /\ (skip = 0 -> Z.of_nat (List.length (buildings db)) <= limit ->
          page = buildings db).
Proof.
  intros db skip limit Hskip Hlimit.
  eexists. split; [apply get_buildings_run |].
  set (bs := buildings db). set (n := Z.to_nat skip). set (m := Z.to_nat limit).
  assert (Hlen : List.length (firstn m (skipn n bs))
                 = Nat.min m (List.length bs - n))
    by (now rewrite length_firstn, length_skipn).
  split; [| split; [| split]].
  - exists (firstn n bs), (skipn m (skipn n bs)). split; [| split].
    + now rewrite !firstn_skipn.
    + rewrite length_firstn. lia.
    + intros Hrest. rewrite Hlen.
      assert (m < List.length (skipn n bs))%nat.
      { destruct (Nat.lt_ge_cases m (List.length (skipn n bs))) as [H | H];
          [assumption |].
        exfalso. apply Hrest. now apply skipn_all2. }
      rewrite length_skipn in H. lia.
  - rewrite Hlen. lia.
  - intros Hpast. replace (skipn n bs) with (@nil Building.t).
    + apply firstn_nil.
    + symmetry. apply skipn_all2. lia.
  - intros -> Hall. subst n. simpl. apply firstn_all2. subst m. lia.
Qed.

Lemma get_buildings_page_witness :
  exists page,
    request (get_buildings 1 5) seed_store = (Return page, seed_store)
    /\ (exists before rest,
          buildings seed_store = before ++ page ++ rest
          /\ Z.of_nat (List.length before)
             = Z.min 1 (Z.of_nat (List.length (buildings seed_store)))
          /\ (rest <> [] -> Z.of_nat (List.length page) = 5))
    /\ Z.of_nat (List.length page)
       = Z.min 5 (Z.max 0 (Z.of_nat (List.length (buildings seed_store)) - 1))
    /\ (Z.of_nat (List.length (buildings seed_store)) <= 1 -> page = [])
    /\ (1 = 0 -> Z.of_nat (List.length (buildings seed_store)) <= 5 ->
        page = buildings seed_store).
Proof. apply (get_buildings_page seed_store 1 5); lia. Defined.

Example second_page_of_one :
  fst (request (get_buildings 1 1) seed_store)
  = Return [Building.mk 2 (utf8 "г. Санкт-Петербург, ул. Блюхера 32/1")
              59.9343%float 30.3351%float].
Proof. vm_compute. reflexivity. Qed.

Lemma firstn_add {A} (a b : nat) (l : list A) :
  firstn (a + b) l = firstn a l ++ firstn b (skipn a l).
Proof.
  revert l. induction a as [| a IH]; intros l; [reflexivity |].
  destruct l as [| x l]; simpl.
  - now rewrite firstn_nil.
  - now rewrite IH.
Qed.

(** X4: consecutive pages tile the table: the page at skip of length
    limit1 followed by the page at skip + limit1 of length limit2 is the
    page at skip of length limit1 + limit2; nothing is lost or repeated. *)
Theorem get_buildings_pages_tile :
  forall (db : Store) (skip limit1 limit2 : Z),
    0 <= skip -> 0 <= limit1 -> 0 <= limit2 ->
    exists page1 page2,
      fst (request (get_buildings skip limit1) db) = Return page1
      /\ fst (request (get_buildings (skip + limit1) limit2) db) = Return page2
      /\ fst (request (get_buildings skip (limit1 + limit2)) db)
         = Return (page1 ++ page2).
Proof.
  intros db skip limit1 limit2 Hs H1 H2.
  rewrite !get_buildings_run. simpl. eexists. eexists.
  split; [reflexivity |]. split; [reflexivity |]. f_equal.
  rewrite !Z2Nat.inj_add by assumption.
  rewrite firstn_add, skipn_skipn. now rewrite (Nat.add_comm (Z.to_nat limit1)).
Qed.

Lemma get_buildings_pages_tile_witness :
  exists page1 page2,
    fst (request (get_buildings 0 1) seed_store) = Return page1
    /\ fst (request (get_buildings (0 + 1) 1) seed_store) = Return page2
    /\ fst (request (get_buildings 0 (1 + 1)) seed_store)
       = Return (page1 ++ page2).
Proof. apply (get_buildings_pages_tile seed_store 0 1 1); lia. Defined.

(** ** Organizations of a building *)

Lemma get_organizations_in_building_run db building_id :
  request (get_organizations_in_building building_id) db
  = (Return (filter (fun o => Organization.building_id o =? building_id)
               (organizations db)), db).
Proof. destruct db; reflexivity. Qed.

(** X5: [get_organizations_in_building] returns the stored organizations
    with that building id, and only those; when [create_organization]
    returns, the list of the new organization's building is the old list
    followed by the new organization, and the list of every other building
    is as before. *)
Theorem create_organization_enters_its_building :
  forall (db : Store) (o : OrganizationCreate.t) (org : Organization.t)
         (db' : Store),
    request (create_organization o) db = (Return org, db') ->
    forall building_id, exists before,
      fst (request (get_organizations_in_building building_id) db)
      = Return before
      /\ (forall x, In x before
                    <-> In x (organizations db)
                        /\ Organization.building_id x = building_id)
      /\ fst (request (get_organizations_in_building building_id) db')
         = Return (if OrganizationCreate.building_id o =? building_id
                   then before ++ [org] else before).
Proof.
  intros db o org db' Hreturns.
  destruct (create_organization_run o db) as (added & Hrun & _).
  rewrite Hrun in Hreturns. injection Hreturns as <- <-.
  intros building_id. rewrite !get_organizations_in_building_run.
  eexists. split; [reflexivity |]. split.
  - intros x. rewrite filter_In, Z.eqb_eq. reflexivity.
  - cbn [fst organizations]. rewrite filter_app. cbn [filter].
    unfold new_organization at 1. cbn [Organization.building_id].
    destruct (OrganizationCreate.building_id o =? building_id).
    + reflexivity.
    + now rewrite app_nil_r.
Qed.

Lemma create_organization_enters_its_building_witness :
  let o := OrganizationCreate.mk (utf8 "Acme") 1 [] [] in
  let org := Organization.mk 1 (utf8 "Acme") 1 in
  let db := with_building empty_store
              (Building.mk 1 (utf8 "X") 55.75%float 37.61%float) in
  let db' := mkStore (buildings db) [] [org] [] [] in
  exists before,
    fst (request (get_organizations_in_building 1) db) = Return before
    /\ (forall x, In x before
                  <-> In x (organizations db)
                      /\ Organization.building_id x = 1)
    /\ fst (request (get_organizations_in_building 1) db')
       = Return (if OrganizationCreate.building_id o =? 1
                 then before ++ [org] else before).
Proof.
  intros o org db db'.
  apply (create_organization_enters_its_building db o org db').
  reflexivity.
Defined.

(** ** The create operations only append *)

Lemma extends_refl db : extends db db.
Proof. repeat split; exists []; now rewrite app_nil_r. Qed.

Lemma create_organization_run_owned o db :
  exists added,
    request (create_organization o) db
    = (Return (new_organization db o),
       mkStore (buildings db) (activities db)
         (organizations db ++ [new_organization db o])
         (phones db ++ added)
         (organization_activity db
            ++ map (fun a => (Organization.id (new_organization db o),
                              Activity.id a))
                 (resolved db o)))
    /\ map Phone.number added = OrganizationCreate.phone_numbers o
    /\ Forall (fun p => Phone.organization_id p
                        = Organization.id (new_organization db o)) added.
Proof.
  unfold request, create_organization, add_organization, set_activities,
    bind, query, update, commit, ret, open. simpl.
  match goal with |- context [add_phones ?ns ?k ?c'] =>
    destruct (add_phones_run ns k c') as (added & Hrun & Hnum & Hown);
    rewrite Hrun end.
  exists added. split; [reflexivity |]. split; assumption.
Qed.

(** X6: no create operation deletes or changes a stored row.  When
    [create_building] returns, the buildings are the old ones followed by
    the returned row and no other table has changed; when
    [create_activity] returns, the same holds of the activities, and when
    it raises its [ValueError] the store is the old one; when
    [create_organization] returns, the organizations are the old ones
    followed by the returned row, the phones are the old ones followed by
    one phone of the new organization per number of the request, the links
    start with the old ones, and buildings and activities have not
    changed. *)
Theorem create_operations_only_append :
  forall db : Store,
    (forall b row db',
       request (create_building b) db = (Return row, db') ->
       extends db db'
       /\ buildings db' = buildings db ++ [row]
       /\ activities db' = activities db
       /\ organizations db' = organizations db
       /\ phones db' = phones db
       /\ organization_activity db' = organization_activity db)
    /\ (forall a row db',
          request (create_activity a) db = (Return row, db') ->
          extends db db'
          /\ activities db' = activities db ++ [row]
          /\ buildings db' = buildings db
          /\ organizations db' = organizations db
          /\ phones db' = phones db
          /\ organization_activity db' = organization_activity db)
    /\ (forall a msg db',
          request (create_activity a) db = (Raise (ValueError msg), db') ->
          db' = db)
    /\ (forall o org db',
          request (create_organization o) db = (Return org, db') ->
          extends db db'
          /\ organizations db' = organizations db ++ [org]
          /\ buildings db' = buildings db
          /\ activities db' = activities db
          /\ exists added,
               phones db' = phones db ++ added
               /\ map Phone.number added = OrganizationCreate.phone_numbers o
               /\ Forall (fun p => Phone.organization_id p
                                   = Organization.id org) added).
Proof.
  intros db. split; [| split; [| split]].
  - intros b row db' Hrun. rewrite create_building_run in Hrun.
    cbv zeta in Hrun. injection Hrun as <- <-.
    cbn [with_building buildings activities organizations phones
           organization_activity].
    split; [| repeat split].
    unfold extends. cbn [with_building buildings activities organizations
                           phones organization_activity].
    repeat split; try (exists []; now rewrite app_nil_r).
    eexists. reflexivity.
  - intros a row db' Hrun.
    destruct (create_activity_cases a db)
      as [Hr | p pa Hpid Hp Hfind Hok | p Hpid Hp Hfind
          | p pa Hpid Hp Hfind Hdeep];
      try discriminate; injection Hrun as <- <-;
      cbn [with_activity buildings activities organizations phones
             organization_activity];
      (split; [| repeat split]);
      unfold extends; cbn [with_activity buildings activities organizations
                             phones organization_activity];
      repeat split; try (exists []; now rewrite app_nil_r);
      eexists; reflexivity.
  - intros a msg db' Hrun.
    destruct (create_activity_cases a db)
      as [Hr | p pa Hpid Hp Hfind Hok | p Hpid Hp Hfind
          | p pa Hpid Hp Hfind Hdeep];
      try discriminate; now injection Hrun as _ <-.
  - intros o org db' Hreturns.
    destruct (create_organization_run_owned o db)
      as (added & Hrun & Hnum & Hown).
    rewrite Hrun in Hreturns. injection Hreturns as <- <-.
    cbn [buildings activities organizations phones organization_activity].
    split; [| split; [| split; [| split]]]; try reflexivity.
    + unfold extends. cbn [buildings activities organizations phones
                             organization_activity].
      repeat split; try (exists []; now rewrite app_nil_r);
        eexists; reflexivity.
    + now exists added.
Qed.

(** ** Keys and references in reachable stores *)

Lemma add_phones_keys numbers organization_id :
  forall c,
    NoDup (map Phone.id (phones (pending c))) ->
    (forall p, In p (phones (pending c)) -> 1 <= Phone.id p) ->
    exists added,
      add_phones numbers organization_id c
      = (Return tt,
         mkConn (persisted c)
           (mkStore (buildings (pending c)) (activities (pending c))
              (organizations (pending c)) (phones (pending c) ++ added)
              (organization_activity (pending c))))
      /\ map Phone.number added = numbers
      /\ Forall (fun p => Phone.organization_id p = organization_id) added
      /\ NoDup (map Phone.id (phones (pending c) ++ added))
      /\ (forall p, In p added -> 1 <= Phone.id p).
Proof.
  induction numbers as [| number rest IH]; intros c Hnd Hpos.
  - exists []. simpl. rewrite app_nil_r. destruct c as [p [b a o ph l]].
    repeat split; try assumption; try constructor. intros q [].
  - simpl. unfold bind at 1. unfold add_phone, bind, query, update, ret.
    cbn [fst snd pending persisted phones buildings activities organizations
           organization_activity].
    set (row := Phone.mk (next_id (map Phone.id (phones (pending c))))
                  number organization_id).
    match goal with |- context [add_phones rest organization_id ?c'] =>
      destruct (IH c') as (added & Hrun & Hnum & Hall & Hnd' & Hpos') end.
    + cbn [pending phones]. rewrite map_app. simpl.
      apply NoDup_snoc; [assumption | apply next_id_fresh].
    + cbn [pending phones]. intros q Hq. apply in_app_or in Hq.
      destruct Hq as [Hq | [<- | []]]; [now apply Hpos |].
      apply next_id_positive.
    + rewrite Hrun. cbn [pending persisted phones buildings activities
                           organizations organization_activity] in *.
      exists (row :: added). rewrite <- app_assoc in *. simpl in *.
      repeat split.
      * now rewrite Hnum.
      * constructor; [reflexivity | assumption].
      * assumption.
      * intros q [<- | Hq]; [apply next_id_positive | now apply Hpos'].
Qed.

(** The invariant of keys: every key is at least 1. *)
Lemma create_organization_keys o db :
  NoDup (map Phone.id (phones db)) ->
  (forall p, In p (phones db) -> 1 <= Phone.id p) ->
  exists added,
    after (create_organization o) db
    = mkStore (buildings db) (activities db)
        (organizations db ++ [new_organization db o])
        (phones db ++ added)
        (organization_activity db
           ++ map (fun a => (Organization.id (new_organization db o),
                             Activity.id a))
                (resolved db o))
    /\ map Phone.number added = OrganizationCreate.phone_numbers o
    /\ Forall (fun p => Phone.organization_id p
                        = Organization.id (new_organization db o)) added
    /\ NoDup (map Phone.id (phones db ++ added))
    /\ (forall p, In p added -> 1 <= Phone.id p).
Proof.
  intros Hnd Hpos.
  unfold after, request, create_organization, add_organization, set_activities,
    bind, query, update, commit, ret, open. simpl.
  match goal with |- context [add_phones ?ns ?k ?c'] =>
    destruct (add_phones_keys ns k c' Hnd Hpos)
      as (added & Hrun & Hnum & Hown & Hnd' & Hpos');
    rewrite Hrun end.
  exists added. simpl. repeat split; assumption.
Qed.

Lemma referential_empty : referential empty_store.
Proof. constructor; simpl; try constructor; intros ? []. Qed.

Lemma referential_reachable db :
  reachable db -> referential db /\ phone_keys_positive db.
Proof.
  induction 1 as [| b db Hreach [[R1 R2 R3 R4] Hpos]
                  | a db Hreach [[R1 R2 R3 R4] Hpos]
                  | o db Hreach [[R1 R2 R3 R4] Hpos]].
  - split; [apply referential_empty | intros p []].
  - unfold after. rewrite create_building_run. cbv zeta. cbn [snd].
    split; [| exact Hpos]. constructor; cbn; try assumption.
    rewrite map_app. cbn. apply NoDup_snoc; [assumption | apply next_id_fresh].
  - unfold after. destruct (create_activity_cases a db); cbn [snd];
      try (split; [constructor |]; assumption);
      (split; [| exact Hpos]); constructor; cbn; try assumption;
      intros l Hl; rewrite map_app; apply in_or_app; left; now apply R4.
  - destruct (create_organization_keys o db R2 Hpos)
      as (added & -> & _ & Hown & Hnd & Hpos').
    split.
    + constructor; cbn; try assumption.
      * intros p Hp. rewrite map_app. apply in_or_app.
        apply in_app_or in Hp. destruct Hp as [Hp | Hp].
        -- left. now apply R3.
        -- right. rewrite Forall_forall in Hown. rewrite (Hown p Hp).
           now left.
      * intros l Hl. apply in_app_or in Hl. destruct Hl as [Hl | Hl].
        -- now apply R4.
        -- apply in_map_iff in Hl. destruct Hl as (x & <- & Hx).
           unfold resolved in Hx. apply filter_In in Hx.
           cbn. apply in_map. tauto.
    + intros p Hp. cbn in Hp. apply in_app_or in Hp.
      destruct Hp as [Hp | Hp]; [now apply Hpos | now apply Hpos'].
Qed.

Lemma building_keys_positive db :
  reachable db -> forall b, In b (buildings db) -> 1 <= Building.id b.
Proof.
  induction 1 as [| b0 db Hreach IH | a db Hreach IH | o db Hreach IH].
  - intros b [].
  - unfold after. rewrite create_building_run. cbv zeta. cbn.
    intros b Hb. apply in_app_or in Hb. destruct Hb as [Hb | [<- | []]].
    + now apply IH.
    + apply next_id_positive.
  - unfold after. destruct (create_activity_cases a db); cbn; exact IH.
  - unfold after. destruct (create_organization_run o db) as (added & -> & _).
    exact IH.
Qed.

Lemma organization_keys_positive db :
  reachable db -> forall o, In o (organizations db) -> 1 <= Organization.id o.
Proof.
  induction 1 as [| b0 db Hreach IH | a db Hreach IH | o0 db Hreach IH].
  - intros o [].
  - unfold after. rewrite create_building_run. exact IH.
  - unfold after. destruct (create_activity_cases a db); cbn; exact IH.
  - unfold after. destruct (create_organization_run o0 db) as (added & -> & _).
    cbn. intros o Ho. apply in_app_or in Ho. destruct Ho as [Ho | [<- | []]].
    + now apply IH.
    + apply next_id_positive.
Qed.

(** X7: in every store the create operations produce, no two rows of a
    table share a primary key, and every key is at least 1: this for
    buildings, activities, organizations and phones. *)
Theorem reachable_keys_unique_and_positive :
  forall db : Store,
    reachable db ->
    (NoDup (map Building.id (buildings db))
     /\ forall b, In b (buildings db) -> 1 <= Building.id b)
    /\ (NoDup (map Activity.id (activities db))
        /\ forall a, In a (activities db) -> 1 <= Activity.id a)
    /\ (NoDup (map Organization.id (organizations db))
        /\ forall o, In o (organizations db) -> 1 <= Organization.id o)
    /\ (NoDup (map Phone.id (phones db))
        /\ forall p, In p (phones db) -> 1 <= Phone.id p).
Proof.
  intros db Hreach.
  destruct (referential_reachable db Hreach) as [[R1 R2 R3 R4] Hpos].
  pose proof (reachable_well_formed db Hreach) as Hwf.
  repeat split; try assumption.
  - now apply building_keys_positive.
  - apply (wf_activity_keys db Hwf).
  - apply (wf_activity_positive db Hwf).
  - apply (wf_organization_keys db Hwf).
  - now apply organization_keys_positive.
Qed.

Lemma reachable_keys_unique_and_positive_witness :
  (NoDup (map Building.id (buildings seed_store))
   /\ forall b, In b (buildings seed_store) -> 1 <= Building.id b)
  /\ (NoDup (map Activity.id (activities seed_store))
      /\ forall a, In a (activities seed_store) -> 1 <= Activity.id a)
  /\ (NoDup (map Organization.id (organizations seed_store))
      /\ forall o, In o (organizations seed_store) -> 1 <= Organization.id o)
  /\ (NoDup (map Phone.id (phones seed_store))
      /\ forall p, In p (phones seed_store) -> 1 <= Phone.id p).
Proof.
  apply (reachable_keys_unique_and_positive seed_store reachable_seed_store).
Defined.

Lemma first_stored {A} (key : A -> Z) (rows : list A) (k : Z) :
  In k (map key rows) ->
  exists x, first (fun x => key x =? k) rows = Some x /\ key x = k.
Proof.
  unfold first. induction rows as [| r rows IH]; simpl; [tauto |].
  intros [Hk | Hk].
  - exists r. rewrite Hk, Z.eqb_refl. auto.
  - destruct (Z.eqb_spec (key r) k) as [Heq | _]; [now exists r |].
    now apply IH.
Qed.

Lemma get_organization_run db org_id :
  request (get_organization org_id) db
  = (Return (first (fun o => Organization.id o =? org_id) (organizations db)),
     db).
Proof. destruct db; reflexivity. Qed.

(** X8: in every store the create operations produce, references between
    tables resolve wherever a create operation wrote them from a stored
    row: the owner of every phone and the organization of every link are
    found by [get_organization], the activity of every link is a stored
    activity, and so is the parent of every activity whose parent id is not
    0. *)
Theorem reachable_references_resolve :
  forall db : Store,
    reachable db ->
    (forall p, In p (phones db) ->
       exists o, fst (request (get_organization (Phone.organization_id p)) db)
                 = Return (Some o)
                 /\ Organization.id o = Phone.organization_id p)
    /\ (forall l, In l (organization_activity db) ->
          (exists o, fst (request (get_organization (fst l)) db)
                     = Return (Some o)
                     /\ Organization.id o = fst l)
          /\ exists a, find_activity db (snd l) = Some a
                       /\ Activity.id a = snd l)
    /\ (forall a p, In a (activities db) -> Activity.parent_id a = Some p ->
          p <> 0 -> exists pa, find_activity db p = Some pa
                               /\ Activity.id pa = p).
Proof.
  intros db Hreach.
  destruct (referential_reachable db Hreach) as [[R1 R2 R3 R4] Hpos].
  pose proof (reachable_well_formed db Hreach) as Hwf.
  split; [| split].
  - intros p Hp. rewrite get_organization_run. cbn [fst].
    destruct (first_stored Organization.id (organizations db) _ (R3 p Hp))
      as (o & Ho & Hid).
    exists o. now rewrite Ho.
  - intros l Hl. split.
    + rewrite get_organization_run. cbn [fst].
      destruct (first_stored Organization.id (organizations db) _
                  (wf_links db Hwf l Hl)) as (o & Ho & Hid).
      exists o. now rewrite Ho.
    + now apply (first_stored Activity.id (activities db)), R4.
  - intros a p Ha Hp Hnz.
    destruct (wf_parent_resolves db Hwf a p Ha Hp Hnz) as [pa Hpa].
    exists pa. split; [assumption |].
    now apply find_activity_some in Hpa.
Qed.

Lemma reachable_references_resolve_witness :
  (forall p, In p (phones seed_store) ->
     exists o,
       fst (request (get_organization (Phone.organization_id p)) seed_store)
       = Return (Some o)
       /\ Organization.id o = Phone.organization_id p)
  /\ (forall l, In l (organization_activity seed_store) ->
        (exists o, fst (request (get_organization (fst l)) seed_store)
                   = Return (Some o)
                   /\ Organization.id o = fst l)
        /\ exists a, find_activity seed_store (snd l) = Some a
                     /\ Activity.id a = snd l)
  /\ (forall a p, In a (activities seed_store) ->
        Activity.parent_id a = Some p ->
        p <> 0 -> exists pa, find_activity seed_store p = Some pa
                             /\ Activity.id pa = p).
Proof.
  apply (reachable_references_resolve seed_store reachable_seed_store).
Defined.

(** ** An organization whose building is not stored *)




(** ** Organizations by activity, after a creation and along the tree *)

Lemma organizations_by_activity_run db activity_id act depth :
  well_formed db ->
  find_activity db activity_id = Some act ->
  (3 <= depth)%nat ->
  exists orgs,
    request (get_organizations_by_activity depth activity_id) db
    = (Return orgs, db)
    /\ forall o,
         In o orgs
         <-> In o (organizations db)
             /\ exists d, descendant db act d
                  /\ In (Organization.id o, Activity.id d)
                       (organization_activity db).
Proof.
  intros Hwf Hfind Hdepth.
  pose proof (find_activity_some db activity_id act Hfind) as [Hin _].
  assert (Hlimit : 3 - Activity.level act <= Z.of_nat depth).
  { pose proof (wf_level_range db Hwf act Hin). lia. }
  destruct (get_all_children_run depth (open db) act Hwf Hin Hlimit)
    as (l & Hrun & Hl).
  unfold request, get_organizations_by_activity. unfold bind at 1, query at 1.
  simpl. rewrite Hfind. unfold bind, query. rewrite Hrun. simpl.
  eexists. split; [reflexivity |].
  intros o.
  rewrite (organizations_linked_to_spec db _ o (wf_organization_keys db Hwf)).
  split; intros (Ho & x & Hx); split; try assumption.
  - destruct Hx as (Hk & Hlink). apply in_map_iff in Hk.
    destruct Hk as (d & <- & Hd). exists d. split; [| assumption].
    now apply Hl.
  - destruct Hx as (Hd & Hlink). exists (Activity.id x).
    split; [| assumption]. apply in_map. now apply Hl.
Qed.

Lemma descendant_same_activities s s' a d :
  activities s' = activities s -> descendant s a d -> descendant s' a d.
Proof.
  intros Heq H. induction H as [| a c d Hin Hp _ IH]; [constructor |].
  apply descendant_child with (c := c); auto. now rewrite Heq.
Qed.

Lemma descendant_trans s a b d :
  descendant s a b -> descendant s b d -> descendant s a d.
Proof.
  intros Hab Hbd. induction Hab as [| a c b Hin Hp _ IH]; [assumption |].
  apply descendant_child with (c := c); auto.
Qed.

(** X10: when [create_organization] returns, the search by an activity
    returns what it returned before and, in addition, the new organization
    exactly when one of the activity ids of the request resolves to that
    activity or to one of its descendants. *)
Theorem create_organization_then_search_by_activity :
  forall (db : Store) (o : OrganizationCreate.t) (act : Activity.t)
         (depth : nat) (org : Organization.t) (db' : Store),
    well_formed db -> In act (activities db) -> (3 <= depth)%nat ->
    request (create_organization o) db = (Return org, db') ->
    exists before orgs,
      fst (request (get_organizations_by_activity depth (Activity.id act)) db)
      = Return before
      /\ fst (request (get_organizations_by_activity depth (Activity.id act)) db')
         = Return orgs
      /\ (forall y, In y orgs <-> In y before \/ (y = org /\ In org orgs))
      /\ (In org orgs
          <-> exists d, descendant db act d
                /\ In (Activity.id d) (OrganizationCreate.activity_ids o)).
Proof.
  intros db o act depth org0 db0 Hwf Hact Hdepth Hreturns.
  pose proof (well_formed_create_organization o db Hwf) as Hwf'.
  unfold after in Hwf'.
  destruct (create_organization_run o db) as (added & Hrun & _).
  rewrite Hrun in Hreturns. injection Hreturns as <- <-.
  rewrite Hrun in Hwf'. cbn [snd] in Hwf'.
  set (org := new_organization db o) in *.
  set (db' := mkStore _ _ _ _ _) in *.
  assert (Hfind : find_activity db (Activity.id act) = Some act)
    by (apply find_activity_in; [apply (wf_activity_keys db Hwf) | assumption]).
  assert (Hfind' : find_activity db' (Activity.id act) = Some act)
    by exact Hfind.
  destruct (organizations_by_activity_run db _ act depth Hwf Hfind Hdepth)
    as (before & Hbefore & Hspec).
  destruct (organizations_by_activity_run db' _ act depth Hwf' Hfind' Hdepth)
    as (orgs & Horgs & Hspec').
  assert (Hdesc : forall d, descendant db' act d <-> descendant db act d).
  { intros d. split; apply descendant_same_activities; reflexivity. }
  assert (Hfresh : forall k, ~ In (Organization.id org, k)
                               (organization_activity db)).
  { intros k Hk. apply (wf_links db Hwf) in Hk. cbn [fst] in Hk.
    now apply next_id_fresh in Hk. }
  assert (Hnew : In org orgs
                 <-> exists d, descendant db act d
                       /\ In (Activity.id d) (OrganizationCreate.activity_ids o)).
  { rewrite Hspec'. split.
    - intros (_ & d & Hd & Hlink). exists d. split; [now apply Hdesc |].
      unfold db' in Hlink. cbn [organization_activity] in Hlink.
      apply in_app_or in Hlink. destruct Hlink as [Hlink | Hlink].
      + now apply Hfresh in Hlink.
      + apply in_map_iff in Hlink. destruct Hlink as (x & Heq & Hx).
        injection Heq as Heq. rewrite <- Heq.
        unfold resolved in Hx. apply filter_In in Hx.
        now apply in_spec.
    - intros (d & Hd & Hid). split.
      + unfold db'. cbn [organizations]. apply in_or_app. right. now left.
      + exists d. split; [now apply Hdesc |].
        unfold db'. cbn [organization_activity]. apply in_or_app. right.
        apply in_map_iff. exists d. split; [reflexivity |].
        unfold resolved. apply filter_In. split.
        * now apply (descendant_stored db act d).
        * now apply in_spec. }
  exists before, orgs.
  rewrite Hbefore, Horgs.
  split; [reflexivity |]. split; [reflexivity |].
  split; [| exact Hnew]. intros y. split.
  - intros Hy. apply Hspec' in Hy. destruct Hy as (Hy & d & Hd & Hlink).
    unfold db' in Hy, Hlink. cbn [organizations organization_activity] in *.
    apply in_app_or in Hy. destruct Hy as [Hy | [<- | []]].
    + left. apply Hspec. split; [assumption |]. exists d.
      split; [now apply Hdesc |].
      apply in_app_or in Hlink. destruct Hlink as [Hlink | Hlink];
        [assumption |].
      exfalso. apply in_map_iff in Hlink. destruct Hlink as (x & Heq & _).
      injection Heq as Heq _.
      assert (Hstored : In (Organization.id org)
                          (map Organization.id (organizations db)))
        by (assert (E : Organization.id org = Organization.id y)
              by exact Heq;
            rewrite E; now apply in_map).
      exact (next_id_fresh _ Hstored).
    + right. split; [reflexivity |]. apply Hspec'. split.
      * unfold db'. cbn [organizations]. apply in_or_app. right. now left.
      * exists d. auto.
  - intros [Hy | [-> Hy]]; [| assumption].
    apply Hspec in Hy. destruct Hy as (Hy & d & Hd & Hlink).
    apply Hspec'. split.
    + unfold db'. cbn [organizations]. apply in_or_app. now left.
    + exists d. split; [now apply Hdesc |].
      unfold db'. cbn [organization_activity]. apply in_or_app. now left.
Qed.

(** The end-to-end scenario of the specification on the seeded rows: an
    organization created under "Мясная продукция" (id 2) is found under
    "Еда" (id 1). *)
Lemma create_organization_then_search_by_activity_witness :
  let o := OrganizationCreate.mk (utf8 "Acme") 1 [utf8 "123"] [2] in
  let org := Organization.mk 3 (utf8 "Acme") 1 in
  let db' := after (create_organization o) seed_store in
  exists before orgs,
    fst (request (get_organizations_by_activity 1000 1) seed_store)
    = Return before
    /\ fst (request (get_organizations_by_activity 1000 1) db') = Return orgs
    /\ (forall y, In y orgs <-> In y before \/ (y = org /\ In org orgs))
    /\ (In org orgs
        <-> exists d, descendant seed_store (Activity.mk 1 (utf8 "Еда") None 0) d
              /\ In (Activity.id d) [2]).
Proof.
  intros o org db'.
  apply (create_organization_then_search_by_activity seed_store o
           (Activity.mk 1 (utf8 "Еда") None 0) 1000 org db').
  - apply reachable_well_formed. apply reachable_seed_store.
  - vm_compute. tauto.
  - lia.
  - vm_compute. reflexivity.
Defined.

Example organization_created_under_meat_is_found_under_food :
  fst (request (get_organizations_by_activity 1000 1)
         (after (create_organization
                   (OrganizationCreate.mk (utf8 "Acme") 1 [utf8 "123"] [2]))
            seed_store))
  = Return [Organization.mk 1 (utf8 "ООО Рога и Копыта") 1;
            Organization.mk 3 (utf8 "Acme") 1].
Proof. vm_compute. reflexivity. Qed.

(** X11: the search by activity grows towards the root: every organization
    returned for an activity is returned for each of its ancestors. *)
Theorem search_by_activity_grows_towards_root :
  forall (db : Store) (a d : Activity.t) (depth : nat),
    well_formed db -> In a (activities db) -> descendant db a d ->
    (3 <= depth)%nat ->
    exists below above,
      fst (request (get_organizations_by_activity depth (Activity.id d)) db)
      = Return below
      /\ fst (request (get_organizations_by_activity depth (Activity.id a)) db)
         = Return above
      /\ forall o, In o below -> In o above.
Proof.
  intros db a d depth Hwf Ha Hdesc Hdepth.
  pose proof (descendant_stored db a d Ha Hdesc) as Hd.
  pose proof (find_activity_in db a (wf_activity_keys db Hwf) Ha) as Fa.
  pose proof (find_activity_in db d (wf_activity_keys db Hwf) Hd) as Fd.
  destruct (organizations_by_activity_run db _ a depth Hwf Fa Hdepth)
    as (above & Habove & Hspec_a).
  destruct (organizations_by_activity_run db _ d depth Hwf Fd Hdepth)
    as (below & Hbelow & Hspec_d).
  exists below, above. rewrite Habove, Hbelow.
  split; [reflexivity |]. split; [reflexivity |].
  intros o Ho. apply Hspec_d in Ho. destruct Ho as (Ho & e & He & Hlink).
  apply Hspec_a. split; [assumption |]. exists e. split; [| assumption].
  now apply descendant_trans with (b := d).
Qed.

Lemma search_by_activity_grows_towards_root_witness :
  exists below above,
    fst (request (get_organizations_by_activity 1000 6) seed_store)
    = Return below
    /\ fst (request (get_organizations_by_activity 1000 4) seed_store)
       = Return above
    /\ forall o, In o below -> In o above.
Proof.
  apply (search_by_activity_grows_towards_root seed_store
           (Activity.mk 4 (utf8 "Автомобили") None 0)
           (Activity.mk 6 (utf8 "Запчасти") (Some 5) 2) 1000).
  - apply reachable_well_formed. apply reachable_seed_store.
  - vm_compute. tauto.
  - apply descendant_child
      with (c := Activity.mk 5 (utf8 "Легковые") (Some 4) 1);
      [vm_compute; tauto | reflexivity |].
    apply descendant_child
      with (c := Activity.mk 6 (utf8 "Запчасти") (Some 5) 2);
      [vm_compute; tauto | reflexivity | constructor].
  - lia.
Defined.

(** ** More on the search by radius *)

(** X12: a radius that is not a number (NaN) selects nothing: a search by
    radius that returns then returns the empty list, whatever the point
    and the stored rows; and it does return where the library computes the
    distance of every building. *)
Theorem get_organizations_by_radius_nan :
  forall (geodesic_km : point -> point -> outcome float) (db : Store)
         (lat lon radius_km : float),
    is_nan radius_km ->
    (forall orgs,
       fst (request (get_organizations_by_radius geodesic_km lat lon radius_km)
              db) = Return orgs ->
       orgs = [])
    /\ (located geodesic_km (lat, lon) (buildings db) ->
        request (get_organizations_by_radius geodesic_km lat lon radius_km) db
        = (Return [], db)).
Proof.
  intros geodesic_km db lat lon radius_km Hnan.
  assert (Hempty : forall orgs db',
             request (get_organizations_by_radius geodesic_km lat lon
                        radius_km) db = (Return orgs, db') ->
             orgs = []).
  { intros orgs db' Hrun.
    apply get_organizations_by_radius_returns in Hrun.
    destruct Hrun as [_ Hspec]. apply no_member_nil. intros o Ho.
    apply Hspec in Ho. destruct Ho as (_ & b & _ & _ & Hkept).
    apply kept_spec in Hkept. destruct Hkept as (km & _ & Hle).
    rewrite float_leb_nan_r in Hle; [discriminate | assumption]. }
  split.
  - intros orgs Horgs.
    destruct (request (get_organizations_by_radius geodesic_km lat lon
                         radius_km) db) as [res db'] eqn:Hrun.
    cbn [fst] in Horgs. subst res. now apply (Hempty orgs db').
  - intros Hloc.
    destruct (get_organizations_by_radius_located geodesic_km db lat lon
                radius_km Hloc) as [orgs Hrun].
    now rewrite Hrun, (Hempty orgs db Hrun).
Qed.

Lemma get_organizations_by_radius_nan_witness :
  (forall orgs,
     fst (request (get_organizations_by_radius degrees_apart
                     55.7558%float 37.6176%float PrimFloat.nan) seed_store)
     = Return orgs ->
     orgs = [])
  /\ (located degrees_apart (55.7558%float, 37.6176%float)
        (buildings seed_store) ->
      request (get_organizations_by_radius degrees_apart
                 55.7558%float 37.6176%float PrimFloat.nan) seed_store
      = (Return [], seed_store)).
Proof.
  apply (get_organizations_by_radius_nan degrees_apart seed_store).
  vm_compute. reflexivity.
Defined.

(** X13: the search by radius grows with the radius: when the searches for
    a radius and for a radius at least as large both return, the point
    being the same, every organization returned for the smaller is
    returned for the larger. *)
Theorem get_organizations_by_radius_monotone :
  forall (geodesic_km : point -> point -> outcome float) (db : Store)
         (lat lon radius_km larger_km : float)
         (near far : list Organization.t),
    PrimFloat.leb radius_km larger_km = true ->
    fst (request (get_organizations_by_radius geodesic_km lat lon radius_km)
           db) = Return near ->
    fst (request (get_organizations_by_radius geodesic_km lat lon larger_km)
           db) = Return far ->
    forall o, In o near -> In o far.
Proof.
  intros geodesic_km db lat lon radius_km larger_km near far Hle Hnear Hfar.
  destruct (request (get_organizations_by_radius geodesic_km lat lon
                       radius_km) db) as [res1 db1] eqn:Hrun1.
  destruct (request (get_organizations_by_radius geodesic_km lat lon
                       larger_km) db) as [res2 db2] eqn:Hrun2.
  cbn [fst] in Hnear, Hfar. subst res1 res2.
  apply get_organizations_by_radius_returns in Hrun1, Hrun2.
  destruct Hrun1 as [_ Hspec1]. destruct Hrun2 as [_ Hspec2].
  intros o Ho. apply Hspec1 in Ho. destruct Ho as (Ho & b & Hb & Hid & Hkept).
  apply Hspec2. split; [assumption |]. exists b.
  repeat split; try assumption.
  apply kept_spec in Hkept. destruct Hkept as (km & Hkm & Hkle).
  apply kept_spec. exists km. split; [assumption |].
  now apply float_leb_trans with (y := radius_km).
Qed.

Lemma get_organizations_by_radius_monotone_witness :
  In (Organization.mk 1 (utf8 "ООО Рога и Копыта") 1)
     [Organization.mk 1 (utf8 "ООО Рога и Копыта") 1;
      Organization.mk 2 (utf8 "Автосервис Скорость") 2].
Proof.
  apply (get_organizations_by_radius_monotone degrees_apart seed_store
           55.7558%float 37.6176%float 1%float 20%float
           [Organization.mk 1 (utf8 "ООО Рога и Копыта") 1]).
  - vm_compute. reflexivity.
  - vm_compute. reflexivity.
  - vm_compute. reflexivity.
  - left. reflexivity.
Defined.

Example radius_twenty_degrees :
  fst (request (get_organizations_by_radius degrees_apart
                  55.7558%float 37.6176%float 20%float) seed_store)
  = Return [Organization.mk 1 (utf8 "ООО Рога и Копыта") 1;
            Organization.mk 2 (utf8 "Автосервис Скорость") 2].
Proof. vm_compute. reflexivity. Qed.

(** ** More on the search by bounding box *)

(** X14: the search by bounding box grows with the box: every organization
    returned for a box is returned for every box that contains it. *)
Theorem get_organizations_by_bbox_monotone :
  forall (db : Store)
         (min_lat max_lat min_lon max_lon : float)
         (min_lat' max_lat' min_lon' max_lon' : float),
    PrimFloat.leb min_lat' min_lat = true ->
    PrimFloat.leb max_lat max_lat' = true ->
    PrimFloat.leb min_lon' min_lon = true ->
    PrimFloat.leb max_lon max_lon' = true ->
    exists inner outer,
      fst (request (get_organizations_by_bbox min_lat max_lat min_lon max_lon)
             db) = Return inner
      /\ fst (request (get_organizations_by_bbox min_lat' max_lat'
                         min_lon' max_lon') db) = Return outer
      /\ forall o, In o inner -> In o outer.
Proof.
  intros db min_lat max_lat min_lon max_lon min_lat' max_lat' min_lon' max_lon'
    H1 H2 H3 H4.
  destruct (get_organizations_by_bbox_run db min_lat max_lat min_lon max_lon)
    as (inner & Hinner & Hspec).
  destruct (get_organizations_by_bbox_run db min_lat' max_lat' min_lon' max_lon')
    as (outer & Houter & Hspec').
  exists inner, outer. rewrite Hinner, Houter.
  split; [reflexivity |]. split; [reflexivity |].
  intros o Ho. apply Hspec in Ho. destruct Ho as (Ho & b & Hb & Hid & Hbox).
  apply Hspec'. split; [assumption |]. exists b.
  split; [assumption |]. split; [assumption |].
  apply in_bbox_spec in Hbox. destruct Hbox as (B1 & B2 & B3 & B4).
  apply in_bbox_spec. repeat split.
  - now apply float_leb_trans with (y := min_lat).
  - now apply float_leb_trans with (y := max_lat).
  - now apply float_leb_trans with (y := min_lon).
  - now apply float_leb_trans with (y := max_lon).
Qed.

Lemma get_organizations_by_bbox_monotone_witness :
  exists inner outer,
    fst (request (get_organizations_by_bbox 55%float 56%float 37%float 38%float)
           seed_store) = Return inner
    /\ fst (request (get_organizations_by_bbox 50%float 60%float
                       30%float 40%float) seed_store) = Return outer
    /\ forall o, In o inner -> In o outer.
Proof.
  apply (get_organizations_by_bbox_monotone seed_store);
    vm_compute; reflexivity.
Defined.

(** X15: a box whose lower bound lies above its upper bound, in latitude
    or in longitude, contains nothing: the search returns the empty list. *)
Theorem get_organizations_by_bbox_inverted :
  forall (db : Store) (min_lat max_lat min_lon max_lon : float),
    PrimFloat.ltb max_lat min_lat = true
    \/ PrimFloat.ltb max_lon min_lon = true ->
    request (get_organizations_by_bbox min_lat max_lat min_lon max_lon) db
    = (Return [], db).
Proof.
  intros db min_lat max_lat min_lon max_lon Hinv.
  destruct (get_organizations_by_bbox_run db min_lat max_lat min_lon max_lon)
    as (orgs & Hrun & Hspec).
  rewrite Hrun. f_equal. f_equal. apply no_member_nil.
  intros o Ho. apply Hspec in Ho. destruct Ho as (_ & b & _ & _ & Hbox).
  apply in_bbox_spec in Hbox. destruct Hbox as (B1 & B2 & B3 & B4).
  destruct Hinv as [Hinv | Hinv]; apply float_ltb_not_leb in Hinv.
  - rewrite (float_leb_trans _ _ _ B1 B2) in Hinv. discriminate.
  - rewrite (float_leb_trans _ _ _ B3 B4) in Hinv. discriminate.
Qed.

Lemma get_organizations_by_bbox_inverted_witness :
  request (get_organizations_by_bbox 56%float 55%float 37%float 38%float)
    seed_store
  = (Return [], seed_store).
Proof.
  apply (get_organizations_by_bbox_inverted seed_store).
  left. vm_compute. reflexivity.
Defined.

(** ** The API layer *)

Lemma serve_wrong_key {A} api_key (handler : Session (response A)) db :
  api_key <> "secret-key-123"%string ->
  serve api_key handler db = (HTTPException 403 "Invalid API Key", db).
Proof.
  intros Hkey. unfold serve, verify_api_key.
  destruct (String.eqb_spec api_key "secret-key-123") as [Heq | _];
    [contradiction | reflexivity].
Qed.

Lemma serve_right_key {A} (handler : Session (response A)) db :
  serve "secret-key-123" handler db
  = match request handler db with
    | (Return r, db') => (r, db')
    | (Raise e, db') => (Unhandled e, db')
    end.
Proof. reflexivity. Qed.

(** X17: with a wrong API key no route does anything: each of the ten
    routes raises 403 "Invalid API Key" and leaves the store as it was; in
    particular nothing is created. *)
Theorem wrong_api_key_is_refused :
  forall (api_key : string) (db : Store),
    api_key <> "secret-key-123"%string ->
    (forall skip limit,
       endpoints.read_buildings api_key skip limit db
       = (HTTPException 403 "Invalid API Key", db))
    /\ (forall building_id,
          endpoints.read_organizations_in_building api_key building_id db
          = (HTTPException 403 "Invalid API Key", db))
    /\ (forall depth activity_id,
          endpoints.read_organizations_by_activity depth api_key activity_id db
          = (HTTPException 403 "Invalid API Key", db))
    /\ (forall geodesic_km lat lon radius_km,
          endpoints.read_organizations_by_radius geodesic_km api_key
            lat lon radius_km db
          = (HTTPException 403 "Invalid API Key", db))
    /\ (forall min_lat max_lat min_lon max_lon,
          endpoints.read_organizations_by_bbox api_key
            min_lat max_lat min_lon max_lon db
          = (HTTPException 403 "Invalid API Key", db))
    /\ (forall org_id,
          endpoints.read_organization api_key org_id db
          = (HTTPException 403 "Invalid API Key", db))
    /\ (forall name,
          endpoints.search_organizations_by_name api_key name db
          = (HTTPException 403 "Invalid API Key", db))
    /\ (forall activity,
          endpoints.create_activity api_key activity db
          = (HTTPException 403 "Invalid API Key", db))
    /\ (forall building,
          endpoints.create_building api_key building db
          = (HTTPException 403 "Invalid API Key", db))
    /\ (forall org,
          endpoints.create_organization api_key org db
          = (HTTPException 403 "Invalid API Key", db)).
Proof.
  intros api_key db Hkey.
  repeat split; intros; now apply serve_wrong_key.
Qed.

Lemma wrong_api_key_is_refused_witness :
  endpoints.create_building "guess"
    (BuildingCreate.mk (utf8 "X") 55.75%float 37.61%float) empty_store
  = (HTTPException 403 "Invalid API Key", empty_store).
Proof.
  apply (wrong_api_key_is_refused "guess" empty_store).
  discriminate.
Defined.

Lemma create_activity_route_run db activity :
  endpoints.create_activity "secret-key-123" activity db
  = match request (create_activity activity) db with
    | (Return row, db') => (Ok row, db')
    | (Raise (ValueError msg), db') => (HTTPException 400 msg, db')
    | (Raise e, db') => (Unhandled e, db')
    end.
Proof.
  unfold endpoints.create_activity. rewrite serve_right_key.
  unfold request, except_ValueError, bind at 1, ret.
  destruct (create_activity activity (open db)) as [[row | [msg |]] c];
    reflexivity.
Qed.

(** X18: the route that creates an activity, called with the right key,
    turns a [ValueError] of [create_activity] into a 400 that carries its
    message, and returns what [create_activity] returns.  So a parent id
    other than 0 that is not stored gives 400 "Parent activity not found",
    a parent at level 2 gives 400 "Maximum nesting level is 3", and in both
    cases the store is unchanged. *)
Theorem create_activity_route :
  forall (db : Store) (activity : ActivityCreate.t),
    (forall msg db',
       request (create_activity activity) db = (Raise (ValueError msg), db') ->
       endpoints.create_activity "secret-key-123" activity db
       = (HTTPException 400 msg, db'))
    /\ (forall row db',
          request (create_activity activity) db = (Return row, db') ->
          endpoints.create_activity "secret-key-123" activity db
          = (Ok row, db'))
    /\ (forall p,
          ActivityCreate.parent_id activity = Some p -> p <> 0 ->
          find_activity db p = None ->
          endpoints.create_activity "secret-key-123" activity db
          = (HTTPException 400 "Parent activity not found", db))
    /\ (forall p pa,
          ActivityCreate.parent_id activity = Some p -> p <> 0 ->
          find_activity db p = Some pa -> 2 < Activity.level pa + 1 ->
          endpoints.create_activity "secret-key-123" activity db
          = (HTTPException 400 "Maximum nesting level is 3", db)).
Proof.
  intros db activity. rewrite create_activity_route_run.
  split; [| split; [| split]].
  - intros msg db' ->. reflexivity.
  - intros row db' ->. reflexivity.
  - intros p Hpid Hp Hfind.
    now rewrite (create_activity_missing activity db p Hpid Hp Hfind).
  - intros p pa Hpid Hp Hfind Hdeep.
    now rewrite (create_activity_too_deep activity db p pa Hpid Hp Hfind Hdeep).
Qed.

Example create_activity_route_fourth_level :
  endpoints.create_activity "secret-key-123"
    (ActivityCreate.mk (utf8 "Шины") (Some 6)) seed_store
  = (HTTPException 400 "Maximum nesting level is 3", seed_store).
Proof. vm_compute. reflexivity. Qed.

Lemma read_organizations_by_activity_route_run depth db activity_id :
  endpoints.read_organizations_by_activity depth "secret-key-123" activity_id db
  = match request (get_organizations_by_activity depth activity_id) db with
    | (Return [], db') =>
        (HTTPException 404 "No organizations found for this activity", db')
    | (Return (o :: orgs), db') => (Ok (o :: orgs), db')
    | (Raise e, db') => (Unhandled e, db')
    end.
Proof.
  unfold endpoints.read_organizations_by_activity. rewrite serve_right_key.
  unfold request, bind at 1, ret.
  destruct (get_organizations_by_activity depth activity_id (open db))
    as [[[| o orgs] | e] c]; reflexivity.
Qed.

(** X19: the route of the search by activity raises 404 whenever the
    search returns nothing: for an activity id that is not stored, and just
    the same for a stored activity with no organization linked to it or to
    a descendant.  Otherwise it returns the list of the search. *)
Theorem read_organizations_by_activity_route :
  forall (db : Store) (activity_id : Z) (depth : nat),
    well_formed db -> (3 <= depth)%nat ->
    exists orgs,
      request (get_organizations_by_activity depth activity_id) db
      = (Return orgs, db)
      /\ endpoints.read_organizations_by_activity depth "secret-key-123"
           activity_id db
         = (match orgs with
            | [] => HTTPException 404 "No organizations found for this activity"
            | _ :: _ => Ok orgs
            end, db)
      /\ (find_activity db activity_id = None -> orgs = [])
      /\ (forall act, find_activity db activity_id = Some act ->
            (orgs = []
             <-> forall o d, In o (organizations db) -> descendant db act d ->
                             ~ In (Organization.id o, Activity.id d)
                                 (organization_activity db))).
Proof.
  intros db activity_id depth Hwf Hdepth.
  rewrite read_organizations_by_activity_route_run.
  destruct (find_activity db activity_id) as [act |] eqn:Hfind.
  - destruct (organizations_by_activity_run db activity_id act depth
                Hwf Hfind Hdepth) as (orgs & Hrun & Hspec).
    exists orgs. rewrite Hrun. split; [reflexivity |].
    split; [destruct orgs; reflexivity |]. split; [discriminate |].
    intros act' Hact'. injection Hact' as <-. split.
    + intros -> o d Ho Hd Hlink.
      apply (proj2 (Hspec o)). split; [assumption |]. now exists d.
    + intros Hnone. apply no_member_nil. intros o Ho.
      apply Hspec in Ho. destruct Ho as (Ho & d & Hd & Hlink).
      now apply (Hnone o d).
  - exists []. unfold request, get_organizations_by_activity, bind, query, open.
    cbn [pending]. rewrite Hfind. cbn.
    split; [reflexivity |]. split; [reflexivity |]. split; [reflexivity |].
    discriminate.
Qed.

Lemma read_organizations_by_activity_route_witness :
  exists orgs,
    request (get_organizations_by_activity 1000 7) seed_store
    = (Return orgs, seed_store)
    /\ endpoints.read_organizations_by_activity 1000 "secret-key-123"
         7 seed_store
       = (match orgs with
          | [] => HTTPException 404 "No organizations found for this activity"
          | _ :: _ => Ok orgs
          end, seed_store)
    /\ (find_activity seed_store 7 = None -> orgs = [])
    /\ (forall act, find_activity seed_store 7 = Some act ->
          (orgs = []
           <-> forall o d, In o (organizations seed_store) ->
                           descendant seed_store act d ->
                           ~ In (Organization.id o, Activity.id d)
                               (organization_activity seed_store))).
Proof.
  apply (read_organizations_by_activity_route seed_store 7 1000).
  - apply reachable_well_formed. apply reachable_seed_store.
  - lia.
Defined.

(** An activity that is stored but classifies no organization gives 404
    like an unknown one. *)
Example read_organizations_by_activity_route_childless :
  fst (endpoints.read_organizations_by_activity 1000 "secret-key-123" 1
         (after (create_activity (ActivityCreate.mk (utf8 "Еда") None))
            empty_store))
  = HTTPException 404 "No organizations found for this activity".
Proof. vm_compute. reflexivity. Qed.

Lemma read_organization_route_run db org_id :
  endpoints.read_organization "secret-key-123" org_id db
  = (match first (fun o => Organization.id o =? org_id) (organizations db) with
     | None => HTTPException 404 "Organization not found"
     | Some o => Ok o
     end, db).
Proof.
  unfold endpoints.read_organization. rewrite serve_right_key.
  unfold request, bind, get_organization, query, ret, open. cbn [pending].
  destruct (first _ (organizations db)); destruct db; reflexivity.
Qed.

Lemma read_organizations_in_building_route_run db building_id :
  endpoints.read_organizations_in_building "secret-key-123" building_id db
  = (match filter (fun o => Organization.building_id o =? building_id)
             (organizations db) with
     | [] => HTTPException 404 "No organizations found in this building"
     | o :: orgs => Ok (o :: orgs)
     end, db).
Proof.
  unfold endpoints.read_organizations_in_building. rewrite serve_right_key.
  unfold request, bind, get_organizations_in_building, query, ret, open.
  cbn [pending].
  destruct (filter _ (organizations db)); destruct db; reflexivity.
Qed.

(** X20: the two lookup routes raise 404 exactly when nothing is found.
    [read_organization] returns the organization of that id when one is
    stored and raises 404 otherwise; [read_organizations_in_building]
    raises 404 when no stored organization has that building id, be the
    building stored or not, and otherwise returns the non-empty list of
    those that have. *)
Theorem lookup_routes_not_found :
  forall db : Store,
    (forall org_id,
       (In org_id (map Organization.id (organizations db)) ->
        exists o,
          endpoints.read_organization "secret-key-123" org_id db = (Ok o, db)
          /\ In o (organizations db) /\ Organization.id o = org_id)
       /\ (~ In org_id (map Organization.id (organizations db)) ->
           endpoints.read_organization "secret-key-123" org_id db
           = (HTTPException 404 "Organization not found", db)))
    /\ (forall building_id,
          ((forall o, In o (organizations db) ->
                      Organization.building_id o <> building_id) ->
           endpoints.read_organizations_in_building "secret-key-123"
             building_id db
           = (HTTPException 404 "No organizations found in this building", db))
          /\ ((exists o, In o (organizations db)
                         /\ Organization.building_id o = building_id) ->
              exists orgs,
                endpoints.read_organizations_in_building "secret-key-123"
                  building_id db = (Ok orgs, db)
                /\ orgs <> []
                /\ forall o, In o orgs
                             <-> In o (organizations db)
                                 /\ Organization.building_id o = building_id)).
Proof.
  intros db. split.
  - intros org_id. rewrite read_organization_route_run. split.
    + intros Hin.
      destruct (first_stored Organization.id (organizations db) org_id Hin)
        as (o & Ho & Hid).
      exists o. rewrite Ho. split; [reflexivity |]. split; [| assumption].
      unfold first in Ho. now apply find_some in Ho.
    + intros Hnot. now rewrite (first_fresh Organization.id _ _ Hnot).
  - intros building_id. rewrite read_organizations_in_building_route_run.
    set (found := filter _ (organizations db)).
    assert (Hfound : forall o, In o found
                               <-> In o (organizations db)
                                   /\ Organization.building_id o = building_id).
    { intros o. unfold found. rewrite filter_In, Z.eqb_eq. reflexivity. }
    split.
    + intros Hnone. replace found with (@nil Organization.t); [reflexivity |].
      symmetry. apply no_member_nil. intros o Ho. apply Hfound in Ho.
      destruct Ho as [Ho Hb]. now apply (Hnone o).
    + intros (o & Ho & Hb). destruct found as [| x rest] eqn:E.
      * exfalso. apply (proj2 (Hfound o)). auto.
      * exists (x :: rest). split; [reflexivity |]. split; [discriminate |].
        exact Hfound.
Qed.

Lemma serve_frame {A} api_key (handler : Session (response A)) db :
  frame handler -> snd (serve api_key handler db) = db.
Proof.
  intros Hframe. unfold serve.
  destruct (verify_api_key api_key) as [[status_code detail] |];
    [reflexivity |].
  pose proof (frame_request handler db Hframe) as Hdb.
  destruct (request handler db) as [[r | e] db']; exact Hdb.
Qed.

(** X21: the seven read routes never change the store, whatever key and
    arguments they are called with. *)
Theorem read_routes_leave_store_unchanged :
  forall (api_key : string) (db : Store),
    (forall skip limit,
       snd (endpoints.read_buildings api_key skip limit db) = db)
    /\ (forall building_id,
          snd (endpoints.read_organizations_in_building api_key building_id db)
          = db)
    /\ (forall depth activity_id,
          snd (endpoints.read_organizations_by_activity depth api_key
                 activity_id db) = db)
    /\ (forall geodesic_km lat lon radius_km,
          snd (endpoints.read_organizations_by_radius geodesic_km api_key
                 lat lon radius_km db) = db)
    /\ (forall min_lat max_lat min_lon max_lon,
          snd (endpoints.read_organizations_by_bbox api_key
                 min_lat max_lat min_lon max_lon db) = db)
    /\ (forall org_id, snd (endpoints.read_organization api_key org_id db) = db)
    /\ (forall name,
          snd (endpoints.search_organizations_by_name api_key name db) = db).
Proof.
  intros api_key db.
  repeat split; intros; apply serve_frame; apply frame_bind;
    try (intros [| ? ?]); try (intros [?|]); try intros ?;
    try apply frame_ret; try apply frame_query;
    try apply frame_get_organizations_by_activity;
    try apply frame_get_organizations_by_radius;
    unfold get_organizations_by_bbox;
    apply frame_bind; auto with frame.
Qed.

(** ** Seeding *)

Lemma create_building_open b db :
  create_building b (open db)
  = (let row := Building.mk (next_id (map Building.id (buildings db)))
                  (BuildingCreate.address b) (BuildingCreate.latitude b)
                  (BuildingCreate.longitude b)
     in (Return row, open (with_building db row))).
Proof. reflexivity. Qed.

Lemma create_root_open name db :
  create_activity (ActivityCreate.mk name None) (open db)
  = (let row := Activity.mk (next_id (map Activity.id (activities db)))
                  name None 0
     in (Return row, open (with_activity db row))).
Proof. reflexivity. Qed.

Lemma create_child_open name db pa :
  find_activity db (Activity.id pa) = Some pa ->
  Activity.id pa <> 0 -> Activity.level pa + 1 <= 2 ->
  create_activity (ActivityCreate.mk name (Some (Activity.id pa))) (open db)
  = (let row := Activity.mk (next_id (map Activity.id (activities db)))
                  name (Some (Activity.id pa)) (Activity.level pa + 1)
     in (Return row, open (with_activity db row))).
Proof.
  intros Hfind Hnz Hok.
  unfold create_activity, add_activity, bind, query, update, commit, ret,
    raise, open. simpl.
  destruct (Z.eqb_spec (Activity.id pa) 0) as [E | _]; [contradiction |].
  simpl. rewrite Hfind.
  destruct (Z.gtb_spec (Activity.level pa + 1) 2) as [Hgt | _]; [lia |].
  reflexivity.
Qed.

Lemma create_organization_open o db :
  exists added,
    create_organization o (open db)
    = (Return (new_organization db o),
       open (mkStore (buildings db) (activities db)
               (organizations db ++ [new_organization db o])
               (phones db ++ added)
               (organization_activity db
                  ++ map (fun a => (Organization.id (new_organization db o),
                                    Activity.id a))
                       (resolved db o))))
    /\ map Phone.number added = OrganizationCreate.phone_numbers o.
Proof.
  unfold create_organization, add_organization, set_activities,
    bind, query, update, commit, ret, open. simpl.
  match goal with |- context [add_phones ?ns ?k ?c'] =>
    destruct (add_phones_run ns k c') as (added & Hrun & Hnum & _);
    rewrite Hrun end.
  exists added. split; [| exact Hnum]. reflexivity.
Qed.

Lemma after_open {A} (op : Session A) db r db' :
  op (open db) = (r, open db') -> after op db = db'.
Proof. intros H. unfold after, request. now rewrite H. Qed.

Lemma find_activity_new db row :
  Activity.id row = next_id (map Activity.id (activities db)) ->
  find_activity (with_activity db row) (Activity.id row) = Some row.
Proof.
  intros Hid. rewrite find_activity_with_activity.
  unfold find_activity. rewrite (first_fresh Activity.id).
  - now rewrite Z.eqb_refl.
  - rewrite Hid. apply next_id_fresh.
Qed.

Lemma find_activity_older db row k a :
  find_activity db k = Some a ->
  find_activity (with_activity db row) k = Some a.
Proof. intros H. rewrite find_activity_with_activity. now rewrite H. Qed.

Lemma bind_return {A B} (m : Session A) (k : A -> Session B) c a c' r :
  m c = (Return a, c') -> k a c' = r -> bind m k c = r.
Proof. intros Hm Hk. unfold bind. now rewrite Hm. Qed.

Lemma bind_query {A B} (q : Store -> A) (k : A -> Session B) c :
  bind (query q) k c = k (q (pending c)) c.
Proof. reflexivity. Qed.

Lemma except_Exception_return {A} (body : Session A) handler c a c' :
  body c = (Return a, c') -> except_Exception body handler c = (Return a, c').
Proof. intros H. unfold except_Exception. now rewrite H. Qed.

Lemma seed_data_seeded db :
  buildings db <> [] -> seed_data (open db) = (Return tt, open db).
Proof.
  intros Hb. unfold seed_data, except_Exception, bind, query, open.
  cbn [pending]. destruct (buildings db) as [| b bs]; [contradiction |].
  reflexivity.
Qed.

Lemma seed_data_run db :
  buildings db = [] ->
  exists b1 b2 food meat dairy cars light parts org1 org2 added links,
    seed_data (open db)
    = (Return tt,
       open (mkStore [b1; b2]
               (activities db ++ [food; meat; dairy; cars; light; parts])
               (organizations db ++ [org1; org2])
               (phones db ++ added)
               (organization_activity db ++ links)))
    /\ (Building.id b1 = 1 /\ Building.id b2 = 2)
    /\ map Activity.level [food; meat; dairy; cars; light; parts]
       = [0; 1; 1; 0; 1; 2]
    /\ map Activity.parent_id [food; meat; dairy; cars; light; parts]
       = [None; Some (Activity.id food); Some (Activity.id food);
          None; Some (Activity.id cars); Some (Activity.id light)]
    /\ (Organization.building_id org1 = 1 /\ Organization.building_id org2 = 2)
    /\ map Phone.number added
       = [utf8 "2-222-222"; utf8 "8-923-666-13-13"; utf8 "3-333-333"]
    /\ (reachable db ->
        reachable (mkStore [b1; b2]
                     (activities db ++ [food; meat; dairy; cars; light; parts])
                     (organizations db ++ [org1; org2])
                     (phones db ++ added)
                     (organization_activity db ++ links))).
Proof.
  intros Hb.
  set (B1 := BuildingCreate.mk (utf8 "г. Москва, ул. Ленина 1, офис 3")
               55.7558%float 37.6176%float).
  set (B2 := BuildingCreate.mk (utf8 "г. Санкт-Петербург, ул. Блюхера 32/1")
               59.9343%float 30.3351%float).
  pose proof (create_building_open B1 db) as H1. cbv zeta in H1.
  set (b1 := Building.mk _ _ _ _) in H1. set (db1 := with_building db b1) in H1.
  pose proof (create_building_open B2 db1) as H2. cbv zeta in H2.
  set (b2 := Building.mk _ _ _ _) in H2. set (db2 := with_building db1 b2) in H2.
  pose proof (create_root_open (utf8 "Еда") db2) as H3. cbv zeta in H3.
  set (food := Activity.mk _ _ _ _) in H3.
  set (db3 := with_activity db2 food) in H3.
  assert (Ffood : find_activity db3 (Activity.id food) = Some food)
    by (now apply find_activity_new).
  assert (Nfood : Activity.id food <> 0).
  { pose proof (next_id_positive (map Activity.id (activities db2))).
    unfold food. cbn [Activity.id]. lia. }
  pose proof (create_child_open (utf8 "Мясная продукция") db3 food Ffood Nfood
                ltac:(cbn; lia)) as H4. cbv zeta in H4.
  set (meat := Activity.mk _ _ _ _) in H4.
  set (db4 := with_activity db3 meat) in H4.
  pose proof (create_child_open (utf8 "Молочная продукция") db4 food
                (find_activity_older db3 meat _ _ Ffood) Nfood
                ltac:(cbn; lia)) as H5. cbv zeta in H5.
  set (dairy := Activity.mk _ _ _ _) in H5.
  set (db5 := with_activity db4 dairy) in H5.
  pose proof (create_root_open (utf8 "Автомобили") db5) as H6. cbv zeta in H6.
  set (cars := Activity.mk _ _ _ _) in H6.
  set (db6 := with_activity db5 cars) in H6.
  assert (Fcars : find_activity db6 (Activity.id cars) = Some cars)
    by (now apply find_activity_new).
  assert (Ncars : Activity.id cars <> 0).
  { pose proof (next_id_positive (map Activity.id (activities db5))).
    unfold cars. cbn [Activity.id]. lia. }
  pose proof (create_child_open (utf8 "Легковые") db6 cars Fcars Ncars
                ltac:(cbn; lia)) as H7. cbv zeta in H7.
  set (light := Activity.mk _ _ _ _) in H7.
  set (db7 := with_activity db6 light) in H7.
  assert (Flight : find_activity db7 (Activity.id light) = Some light)
    by (now apply find_activity_new).
  assert (Nlight : Activity.id light <> 0).
  { pose proof (next_id_positive (map Activity.id (activities db6))).
    unfold light. cbn [Activity.id]. lia. }
  pose proof (create_child_open (utf8 "Запчасти") db7 light Flight Nlight
                ltac:(cbn; lia)) as H8. cbv zeta in H8.
  set (parts := Activity.mk _ _ _ _) in H8.
  set (db8 := with_activity db7 parts) in H8.
  set (O1 := OrganizationCreate.mk (utf8 "ООО Рога и Копыта") (Building.id b1)
               [utf8 "2-222-222"; utf8 "8-923-666-13-13"]
               [Activity.id meat; Activity.id dairy]).
  destruct (create_organization_open O1 db8) as (added1 & H9 & Hnum1).
  set (org1 := new_organization db8 O1) in H9.
  set (db9 := mkStore _ _ _ _ _) in H9.
  set (O2 := OrganizationCreate.mk (utf8 "Автосервис Скорость") (Building.id b2)
               [utf8 "3-333-333"] [Activity.id parts]).
  destruct (create_organization_open O2 db9) as (added2 & H10 & Hnum2).
  set (org2 := new_organization db9 O2) in H10.
  set (db10 := mkStore _ _ _ _ _) in H10.
  exists b1, b2, food, meat, dairy, cars, light, parts, org1, org2,
    (added1 ++ added2),
    (map (fun a => (Organization.id org1, Activity.id a)) (resolved db8 O1)
       ++ map (fun a => (Organization.id org2, Activity.id a)) (resolved db9 O2)).
  assert (Hdb10 : db10
                  = mkStore [b1; b2]
                      (activities db ++ [food; meat; dairy; cars; light; parts])
                      (organizations db ++ [org1; org2])
                      (phones db ++ added1 ++ added2)
                      (organization_activity db
                         ++ map (fun a => (Organization.id org1, Activity.id a))
                              (resolved db8 O1)
                         ++ map (fun a => (Organization.id org2, Activity.id a))
                              (resolved db9 O2))).
  { assert (Eb : buildings db10 = [b1; b2]).
    { change (buildings db10) with ((buildings db ++ [b1]) ++ [b2]).
      now rewrite Hb. }
    assert (Ea : activities db10
                 = activities db ++ [food; meat; dairy; cars; light; parts]).
    { change (activities db10)
        with ((((((activities db ++ [food]) ++ [meat]) ++ [dairy]) ++ [cars])
                 ++ [light]) ++ [parts]).
      now rewrite <- !app_assoc. }
    assert (Eo : organizations db10 = organizations db ++ [org1; org2]).
    { change (organizations db10)
        with ((organizations db ++ [org1]) ++ [org2]).
      now rewrite <- !app_assoc. }
    assert (Ep : phones db10 = phones db ++ added1 ++ added2).
    { change (phones db10) with ((phones db ++ added1) ++ added2).
      now rewrite <- !app_assoc. }
    assert (El : organization_activity db10
                 = organization_activity db
                     ++ map (fun a => (Organization.id org1, Activity.id a))
                          (resolved db8 O1)
                     ++ map (fun a => (Organization.id org2, Activity.id a))
                          (resolved db9 O2)).
    { change (organization_activity db10)
        with ((organization_activity db
                 ++ map (fun a => (Organization.id org1, Activity.id a))
                      (resolved db8 O1))
                ++ map (fun a => (Organization.id org2, Activity.id a))
                     (resolved db9 O2)).
      now rewrite <- !app_assoc. }
    transitivity (mkStore (buildings db10) (activities db10)
                    (organizations db10) (phones db10)
                    (organization_activity db10)); [reflexivity |].
    now rewrite Eb, Ea, Eo, Ep, El. }
  rewrite <- Hdb10.
  split; [| split; [| split; [| split; [| split; [| split]]]]].
  - apply except_Exception_return.
    rewrite bind_query. cbn [pending open]. rewrite Hb.
    cbn [List.length Z.of_nat Z.gtb Z.compare].
    eapply bind_return; [exact H1 |].
    eapply bind_return; [exact H2 |].
    eapply bind_return; [exact H3 |].
    eapply bind_return; [exact H4 |].
    eapply bind_return; [exact H5 |].
    eapply bind_return; [exact H6 |].
    eapply bind_return; [exact H7 |].
    eapply bind_return; [exact H8 |].
    eapply bind_return; [exact H9 |].
    eapply bind_return; [exact H10 |].
    reflexivity.
  - unfold b2, db1, with_building, b1. cbn [Building.id buildings].
    rewrite Hb. split; reflexivity.
  - reflexivity.
  - reflexivity.
  - unfold org1, org2, new_organization, O1, O2, b2, db1, with_building, b1.
    cbn [Organization.building_id OrganizationCreate.building_id Building.id
           buildings].
    rewrite Hb. split; reflexivity.
  - rewrite map_app, Hnum1, Hnum2. reflexivity.
  - intros Hreach.
    rewrite <- (after_open _ _ _ _ H10). apply reachable_organization.
    rewrite <- (after_open _ _ _ _ H9). apply reachable_organization.
    rewrite <- (after_open _ _ _ _ H8). apply reachable_activity.
    rewrite <- (after_open _ _ _ _ H7). apply reachable_activity.
    rewrite <- (after_open _ _ _ _ H6). apply reachable_activity.
    rewrite <- (after_open _ _ _ _ H5). apply reachable_activity.
    rewrite <- (after_open _ _ _ _ H4). apply reachable_activity.
    rewrite <- (after_open _ _ _ _ H3). apply reachable_activity.
    rewrite <- (after_open _ _ _ _ H2). apply reachable_building.
    rewrite <- (after_open _ _ _ _ H1). apply reachable_building.
    exact Hreach.
Qed.

Lemma request_open {A} (op : Session A) db r db' :
  op (open db) = (r, open db') -> request op db = (r, db').
Proof. intros H. unfold request. now rewrite H. Qed.

(** X22: [seed_data] does nothing to a store that already has a building:
    it returns without an exception and the store is as before. *)
Theorem seed_data_skips_seeded_store :
  forall db : Store,
    buildings db <> [] -> request seed_data db = (Return tt, db).
Proof.
  intros db Hb. apply request_open. now apply seed_data_seeded.
Qed.

Lemma seed_data_skips_seeded_store_witness :
  request seed_data seed_store = (Return tt, seed_store).
Proof.
  apply (seed_data_skips_seeded_store seed_store).
  vm_compute. discriminate.
Defined.

(** X23: on a store without buildings [seed_data] raises nothing (so it
    never rolls back) and adds, after the rows already stored, the two
    buildings with the keys 1 and 2, six activities in two trees with the
    levels 0, 1, 1 and 0, 1, 2, each child pointing to the row created
    before it, one organization in each of the two buildings, and their
    three phones. *)
Theorem seed_data_fills_store_without_buildings :
  forall db : Store,
    buildings db = [] ->
    exists db' b1 b2 food meat dairy cars light parts org1 org2 added,
      request seed_data db = (Return tt, db')
      /\ extends db db'
      /\ buildings db' = [b1; b2]
      /\ (Building.id b1 = 1 /\ Building.id b2 = 2)
      /\ activities db'
         = activities db ++ [food; meat; dairy; cars; light; parts]
      /\ map Activity.level [food; meat; dairy; cars; light; parts]
         = [0; 1; 1; 0; 1; 2]
      /\ map Activity.parent_id [food; meat; dairy; cars; light; parts]
         = [None; Some (Activity.id food); Some (Activity.id food);
            None; Some (Activity.id cars); Some (Activity.id light)]
      /\ organizations db' = organizations db ++ [org1; org2]
      /\ (Organization.building_id org1 = 1
          /\ Organization.building_id org2 = 2)
      /\ phones db' = phones db ++ added
      /\ map Phone.number added
         = [utf8 "2-222-222"; utf8 "8-923-666-13-13"; utf8 "3-333-333"].
Proof.
  intros db Hb.
  destruct (seed_data_run db Hb)
    as (b1 & b2 & food & meat & dairy & cars & light & parts & org1 & org2
        & added & links & Hrun & Hkeys & Hlevels & Hparents & Hhoused
        & Hnumbers & _).
  eexists. exists b1, b2, food, meat, dairy, cars, light, parts, org1, org2, added.
  split; [apply request_open; exact Hrun |].
  cbn [buildings activities organizations phones].
  repeat split; try assumption; try tauto.
  - exists [b1; b2]. now rewrite Hb.
  - eexists. reflexivity.
  - eexists. reflexivity.
  - eexists. reflexivity.
  - eexists. reflexivity.
Qed.

Lemma seed_data_fills_store_without_buildings_witness :
  exists db' b1 b2 food meat dairy cars light parts org1 org2 added,
    request seed_data empty_store = (Return tt, db')
    /\ extends empty_store db'
    /\ buildings db' = [b1; b2]
    /\ (Building.id b1 = 1 /\ Building.id b2 = 2)
    /\ activities db'
       = activities empty_store ++ [food; meat; dairy; cars; light; parts]
    /\ map Activity.level [food; meat; dairy; cars; light; parts]
       = [0; 1; 1; 0; 1; 2]
    /\ map Activity.parent_id [food; meat; dairy; cars; light; parts]
       = [None; Some (Activity.id food); Some (Activity.id food);
          None; Some (Activity.id cars); Some (Activity.id light)]
    /\ organizations db' = organizations empty_store ++ [org1; org2]
    /\ (Organization.building_id org1 = 1 /\ Organization.building_id org2 = 2)
    /\ phones db' = phones empty_store ++ added
    /\ map Phone.number added
       = [utf8 "2-222-222"; utf8 "8-923-666-13-13"; utf8 "3-333-333"].
Proof.
  apply (seed_data_fills_store_without_buildings empty_store). reflexivity.
Defined.

(** Seeding the empty store gives the store used in the examples above. *)
Example seed_data_on_empty_store :
  request seed_data empty_store = (Return tt, seed_store).
Proof. vm_compute. reflexivity. Qed.

(** X24: seeding is idempotent: running [seed_data] a second time changes
    nothing, whatever the store was before the first run. *)
Theorem seed_data_idempotent :
  forall db : Store,
    after seed_data (after seed_data db) = after seed_data db.
Proof.
  intros db. destruct (buildings db) as [| b bs] eqn:Hb.
  - destruct (seed_data_run db Hb)
      as (b1 & b2 & food & meat & dairy & cars & light & parts & org1 & org2
          & added & links & Hrun & _).
    rewrite (after_open _ _ _ _ Hrun).
    apply (after_open _ _ (Return tt)). apply seed_data_seeded.
    cbn [buildings]. discriminate.
  - assert (Hne : buildings db <> []) by (rewrite Hb; discriminate).
    rewrite (after_open _ _ _ _ (seed_data_seeded db Hne)).
    apply (after_open _ _ (Return tt)). now apply seed_data_seeded.
Qed.

(** X25: seeding stays within the states of the create operations: from a
    store they can produce, [seed_data] leads to a store they can produce,
    so the invariants of keys, levels and references hold after it. *)
Theorem seed_data_keeps_reachable :
  forall db : Store,
    reachable db -> reachable (after seed_data db).
Proof.
  intros db Hreach. destruct (buildings db) as [| b bs] eqn:Hb.
  - destruct (seed_data_run db Hb)
      as (b1 & b2 & food & meat & dairy & cars & light & parts & org1 & org2
          & added & links & Hrun & _ & _ & _ & _ & _ & Hkeeps).
    rewrite (after_open _ _ _ _ Hrun). now apply Hkeeps.
  - assert (Hne : buildings db <> []) by (rewrite Hb; discriminate).
    now rewrite (after_open _ _ _ _ (seed_data_seeded db Hne)).
Qed.

Lemma seed_data_keeps_reachable_witness :
  reachable (after seed_data empty_store).
Proof.
  apply (seed_data_keeps_reachable empty_store). apply reachable_empty.
Defined.
